(** * Japanese regional mesh codec: [src/utils/mesh_utils.py]

    A shallow embedding of the two directions of the codec,
    [latlon_to_meshcode] (coordinates to mesh code) and
    [meshcode_to_latlon] with its worker [_meshcode_to_latlon_vectorized]
    (mesh code to coordinates), followed by the properties of the
    specification that concern them.

    The callers come next: the computations of [src/app.py] on codes,
    values and colours, and the header handling of
    [src/utils/data_processor.py].  Part IV has their properties, and
    those of the codec that the callers rely on.

    Modelling conventions.
    - Python [float] (binary64) values are modelled by exact rationals [Q]:
      [2.0 / 3.0] is the rational two thirds, no operation rounds.  Results
      that are compared as numbers are compared with [==] (Qeq).
    - Python/NumPy integers are [Z], without the 64-bit bound.
    - [str] is [string]; a pandas Series or NumPy array is a [list].
    - Exceptions are values of [exn]; a computation that can raise returns
      a [result].
    - The text-to-number conversions [astype(float)] and [astype(int)] are
      modelled on strings of ASCII decimal digits, where they agree with
      Python; every other string raises in the model (signs, blanks and the
      like are outside the contract of the codec). *)

From Stdlib Require Import ZArith QArith Qround Qabs Qminmax Lqa Lia String Ascii DecimalString.
From Stdlib Require DecimalZ.
From stdpp Require Import base list.

Open Scope string_scope.
Open Scope Z_scope.

(** * Part I: the program

    The definitions of this part follow the sources line by line,
    [mesh_utils.py] first; the names are those of the source. *)

(** ** Exceptions *)

(** The exceptions the module can raise, with their message.  Its own
    [raise] and the failed conversions are [ValueError]s; [IndexError] is
    what [iloc[0]] raises on an empty frame. *)
Inductive exn : Type :=
  | ValueError (msg : string)
  | IndexError (msg : string).

Inductive result (A : Type) : Type :=
  | Ok (a : A)
  | Raise (e : exn).
Arguments Ok {A} a.
Arguments Raise {A} e.

#[global] Instance result_ret : MRet result := fun _ a => Ok a.
#[global] Instance result_bind : MBind result :=
  fun _ _ f m => match m with Ok a => f a | Raise e => Raise e end.

Definition is_ok {A} (r : result A) : bool :=
  match r with Ok _ => true | Raise _ => false end.

(** ** Strings and numbers *)

(** [s[a:b]] for non-negative [a] and [b]: the slice is cut at the end of
    the string, never an error. *)
Definition py_slice (a b : nat) (s : string) : string :=
  substring a (b - a) s.

(** [str(n)] of an integer, also NumPy's [astype(str)] on an integer array. *)
Definition astype_str (n : Z) : string :=
  NilZero.string_of_int (Z.to_int n).

Fixpoint zeros (n : nat) : string :=
  match n with
  | O => ""
  | S n' => String "0" (zeros n')
  end.

(** [str.zfill(width)]: pad with zeros on the left, after a leading sign. *)
Definition zfill (width : nat) (s : string) : string :=
  let pad := zeros (width - String.length s) in
  match s with
  | String c rest =>
      if (Ascii.eqb c "+" || Ascii.eqb c "-")%bool
      then String c (pad ++ rest)
      else pad ++ s
  | EmptyString => pad
  end.

(** NumPy's [astype(int)] on a float: the C cast, truncation toward zero. *)
Definition astype_int (x : Q) : Z :=
  Z.quot (Qnum x) (Z.pos (Qden x)).

(** The integer written by a non-empty string of decimal digits. *)
Definition parse_digits (s : string) : option Z :=
  match s with
  | EmptyString => None
  | _ => option_map Z.of_uint (NilEmpty.uint_of_string s)
  end.

(** One element of [Series.astype(float)]. *)
Definition to_float (s : string) : result Q :=
  match parse_digits s with
  | Some n => Ok (inject_Z n)
  | None => Raise (ValueError ("could not convert string to float: '" ++ s ++ "'"))
  end.

(** One element of [Series.astype(int)]. *)
Definition to_int (s : string) : result Z :=
  match parse_digits s with
  | Some n => Ok n
  | None => Raise (ValueError ("invalid literal for int() with base 10: '" ++ s ++ "'"))
  end.

(** ** Encoding: [latlon_to_meshcode] *)

(** The loop variables of the level 4 to 6 loop (source lines 63-66, 80). *)
Record quad_state : Type := mk_quad_state {
  curr_t_lat : Q;
  curr_t_lon : Q;
  curr_m_lat : Z;
  curr_m_lon : Z;
  mesh_code : string
}.

(** The quadrant digit of one level, [m_lat * 2 + m_lon + 1] (line 79). *)
Definition quadrant_code (m_lat m_lon : Z) : Z := m_lat * 2 + m_lon + 1.

(** One iteration of [for _ in range(4, level + 1)] (lines 69-84). *)
Definition quadrant_iter (st : quad_state) : quad_state :=
  let rem_lat := (curr_t_lat st - inject_Z (curr_m_lat st))%Q in
  let rem_lon := (curr_t_lon st - inject_Z (curr_m_lon st))%Q in
  let t_lat := (rem_lat * 2)%Q in
  let t_lon := (rem_lon * 2)%Q in
  let m_lat := astype_int t_lat in
  let m_lon := astype_int t_lon in
  let code := astype_str (quadrant_code m_lat m_lon) in
  mk_quad_state t_lat t_lon m_lat m_lon (mesh_code st ++ code).

(** [latlon_to_meshcode(lat, lon, level)] on one coordinate pair.  The
    function has no [raise]: every path ends in [Ok].  [range(4, level + 1)]
    runs [level - 3] times, and not at all when [level < 4]. *)
Definition latlon_to_meshcode (lat lon : Q) (level : Z) : result string :=
  (* level 1 *)
  let t_lat1 := (lat * (3 # 2))%Q in
  let t_lon1 := (lon - 100)%Q in
  let m1_lat := astype_int t_lat1 in
  let m1_lon := astype_int t_lon1 in
  let mesh_code1 := astype_str m1_lat ++ zfill 2 (astype_str m1_lon) in
  if level =? 1 then Ok mesh_code1 else
  (* level 2 *)
  let rem_lat1 := (t_lat1 - inject_Z m1_lat)%Q in
  let rem_lon1 := (t_lon1 - inject_Z m1_lon)%Q in
  let t_lat2 := (rem_lat1 * 8)%Q in
  let t_lon2 := (rem_lon1 * 8)%Q in
  let m2_lat := astype_int t_lat2 in
  let m2_lon := astype_int t_lon2 in
  let mesh_code2 := mesh_code1 ++ astype_str m2_lat ++ astype_str m2_lon in
  if level =? 2 then Ok mesh_code2 else
  (* level 3 *)
  let rem_lat2 := (t_lat2 - inject_Z m2_lat)%Q in
  let rem_lon2 := (t_lon2 - inject_Z m2_lon)%Q in
  let t_lat3 := (rem_lat2 * 10)%Q in
  let t_lon3 := (rem_lon2 * 10)%Q in
  let m3_lat := astype_int t_lat3 in
  let m3_lon := astype_int t_lon3 in
  let mesh_code3 := mesh_code2 ++ astype_str m3_lat ++ astype_str m3_lon in
  if level =? 3 then Ok mesh_code3 else
  (* levels 4 to 6 *)
  let st := mk_quad_state t_lat3 t_lon3 m3_lat m3_lon mesh_code3 in
  Ok (mesh_code (Nat.iter (Z.to_nat (level - 3)) quadrant_iter st)).

(** ** Decoding: [_meshcode_to_latlon_vectorized] and [meshcode_to_latlon] *)

(** *** Array and Series operations *)

(** [np.full(n, v)]. *)
Definition np_full {A} (n : nat) (v : A) : list A := replicate n v.

(** [np.where(mask, a, b)] on three arrays of one length. *)
Definition np_where {A} (mask : list bool) (a b : list A) : list A :=
  zip_with (fun (m : bool) (p : A * A) => if m then p.1 else p.2) mask (zip a b).

(** [np.where(mask, a, 0)]: the scalar [0] is broadcast. *)
Definition np_where0 (mask : list bool) (a : list Q) : list Q :=
  zip_with (fun (m : bool) (x : Q) => if m then x else 0%Q) mask a.

(** [Series.any()]. *)
Definition series_any (mask : list bool) : bool := existsb id mask.

(** [Series.str.len()]. *)
Definition str_len (s_code : list string) : list nat :=
  String.length <$> s_code.

(** [Series.str[a:b]]. *)
Definition str_slice (a b : nat) (s_code : list string) : list string :=
  py_slice a b <$> s_code.

(** [Series.replace('', '0')]: a value that is the empty string becomes
    ['0'], every other value is kept. *)
Definition replace_empty (s : string) : string :=
  if String.eqb s "" then "0" else s.

Definition series_replace_empty (l : list string) : list string :=
  replace_empty <$> l.

(** [Series.astype(float)] and [Series.astype(int)]: the first element that
    does not convert raises for the whole Series. *)
Definition astype_float (l : list string) : result (list Q) := mapM to_float l.
Definition astype_int_series (l : list string) : result (list Z) := mapM to_int l.

(** [Series.isin(vals)]. *)
Definition isin (vals : list Z) (l : list Z) : list bool :=
  (fun z => existsb (Z.eqb z) vals) <$> l.

(** [Series.max()]: [None] stands for the [NaN] pandas returns on an empty
    Series. *)
Definition series_max (l : list nat) : option nat :=
  match l with
  | [] => None
  | x :: l' => Some (foldr Nat.max x l')
  end.

(** [int(max_len)]: [int] of [NaN] raises. *)
Definition int_of_max (m : option nat) : result nat :=
  match m with
  | Some n => Ok n
  | None => Raise (ValueError "cannot convert float NaN to integer")
  end.

(** *** The decoder *)

(** The four arrays the decoder updates: [lat], [lon], [lat_delta],
    [lon_delta]. *)
Definition cols : Type := (list Q * list Q * list Q * list Q)%type.

(** The level 2 block (lines 126-134) and the level 3 block (lines 138-145)
    are the same code up to three constants: the length [min_len] the mask
    asks for, the position [pos] of the latitude digit and the number
    [parts] of subdivisions. *)
Definition paired_level (s_code : list string) (min_len pos : nat) (parts : Q)
    (st : cols) : result cols :=
  let '(lat, lon, lat_delta, lon_delta) := st in
  let mask := (fun s => min_len <=? String.length s)%nat <$> s_code in
  if series_any mask then
    let lat_delta := np_where mask ((fun d => d / parts)%Q <$> lat_delta) lat_delta in
    let lon_delta := np_where mask ((fun d => d / parts)%Q <$> lon_delta) lon_delta in
    m_lat ← astype_float (series_replace_empty (str_slice pos (pos + 1) s_code));
    m_lon ← astype_float (series_replace_empty (str_slice (pos + 1) (pos + 2) s_code));
    let lat := zip_with Qplus lat (np_where0 mask (zip_with Qmult m_lat lat_delta)) in
    let lon := zip_with Qplus lon (np_where0 mask (zip_with Qmult m_lon lon_delta)) in
    mret (lat, lon, lat_delta, lon_delta)
  else mret st.

(** The body of [for i in range(8, int(max_len))] (lines 151-165). *)
Definition quadrant_step (s_code : list string) (i : nat) (st : cols) : result cols :=
  let '(lat, lon, lat_delta, lon_delta) := st in
  let mask_i := (fun s => i <? String.length s)%nat <$> s_code in
  if negb (series_any mask_i) then mret st else
  let lat_delta := np_where mask_i ((fun d => d / 2)%Q <$> lat_delta) lat_delta in
  let lon_delta := np_where mask_i ((fun d => d / 2)%Q <$> lon_delta) lon_delta in
  code_i ← astype_int_series (series_replace_empty (str_slice i (i + 1) s_code));
  let lat := zip_with Qplus lat (np_where0 (mask_i &&* isin [3; 4] code_i) lat_delta) in
  let lon := zip_with Qplus lon (np_where0 (mask_i &&* isin [2; 4] code_i) lon_delta) in
  mret (lat, lon, lat_delta, lon_delta).

(** A [for] loop over a list of indices whose body can raise. *)
Fixpoint for_range {S : Type} (idx : list nat) (body : nat -> S -> result S) (st : S)
    : result S :=
  match idx with
  | [] => mret st
  | i :: idx' => st' ← body i st; for_range idx' body st'
  end.

(** One row of the returned frame: columns [lat], [lon] in the modes [sw]
    and [center], columns [min_lat], [min_lon], [max_lat], [max_lon] in the
    mode [bbox]. *)
Inductive record : Type :=
  | LatLon (lat lon : Q)
  | BBox (min_lat min_lon max_lat max_lon : Q).

(** The mode switch (lines 168-183). *)
Definition mode_frame (mode : string) (st : cols) : result (list record) :=
  let '(lat, lon, lat_delta, lon_delta) := st in
  if String.eqb mode "sw" then
    mret (zip_with LatLon lat lon)
  else if String.eqb mode "center" then
    mret (zip_with LatLon
            (zip_with Qplus lat ((fun d => d / 2)%Q <$> lat_delta))
            (zip_with Qplus lon ((fun d => d / 2)%Q <$> lon_delta)))
  else if String.eqb mode "bbox" then
    mret (zip_with (fun (sw ne : Q * Q) => BBox sw.1 sw.2 ne.1 ne.2)
            (zip lat lon)
            (zip (zip_with Qplus lat lat_delta) (zip_with Qplus lon lon_delta)))
  else Raise (ValueError ("Invalid mode: " ++ mode)).

Definition _meshcode_to_latlon_vectorized (s_code : list string) (mode : string)
    : result (list record) :=
  let n := length s_code in
  let lat_delta := np_full n (2 / 3)%Q in
  let lon_delta := np_full n 1%Q in
  (* level 1, characters 1-4 *)
  idx_lat ← astype_float (str_slice 0 2 s_code);
  let lat := zip_with Qmult idx_lat lat_delta in
  idx_lon ← astype_float (str_slice 2 4 s_code);
  let lon := (fun x => x + 100)%Q <$> idx_lon in
  (* level 2, characters 5-6, and level 3, characters 7-8 *)
  st2 ← paired_level s_code 6 4 8 (lat, lon, lat_delta, lon_delta);
  st3 ← paired_level s_code 8 6 10 st2;
  (* levels 4 and up, one character each *)
  max_len ← int_of_max (series_max (str_len s_code));
  st ← for_range (seq 8 (max_len - 8)) (quadrant_step s_code) st3;
  mode_frame mode st.

(** What [meshcode_to_latlon] accepts: a string, an integer, or a batch
    (Series, list or array) of strings. *)
Inductive mesh_input : Type :=
  | Scalar (s : string)
  | ScalarInt (n : Z)
  | Batch (l : list string).

(** What it returns: one record as a dict for a scalar, a frame for a batch. *)
Inductive output : Type :=
  | Dict (r : record)
  | DataFrame (rows : list record).

(** [res.iloc[0].to_dict()]. *)
Definition iloc0 (res : list record) : result output :=
  match res with
  | r :: _ => Ok (Dict r)
  | [] => Raise (IndexError "single positional indexer is out-of-bounds")
  end.

Definition meshcode_to_latlon (mesh_code : mesh_input) (mode : string) : result output :=
  match mesh_code with
  | Batch l => res ← _meshcode_to_latlon_vectorized l mode; mret (DataFrame res)
  | Scalar s => res ← _meshcode_to_latlon_vectorized [s] mode; iloc0 res
  | ScalarInt n => res ← _meshcode_to_latlon_vectorized [astype_str n] mode; iloc0 res
  end.

(** ** [app.py]: target codes, values and colours

    The computations of [app.py] that do not draw: the code a mesh is
    aggregated under and the weighted mean of a group ([get_aggregated_data],
    lines 132-133 and 141-154), the values shown
    for one mesh ([main], lines 444-470), the average age of
    [render_metrics] (lines 273-278), the heat-map colour
    ([get_heatmap_color]) and the colour column ([main], lines 483-484). *)

(** A dict literal, as the list of its items, and [dict.get(key, default)]. *)
Fixpoint dict_get {V : Type} (d : list (Z * V)) (key : Z) (dflt : V) : V :=
  match d with
  | [] => dflt
  | (k, v) :: d' => if k =? key then v else dict_get d' key dflt
  end.

(** [MESH_LEVEL_MAP = {1: 4, 2: 6, 3: 8, 4: 9, 5: 10, 6: 11}] (line 17). *)
Definition MESH_LEVEL_MAP : list (Z * nat) :=
  [(1, 4%nat); (2, 6%nat); (3, 8%nat); (4, 9%nat); (5, 10%nat); (6, 11%nat)].

(** [df["KEY_CODE"].str[:code_len]] with
    [code_len = MESH_LEVEL_MAP.get(level, 11)], for one key code. *)
Definition target_code (level : Z) (key_code : string) : string :=
  let code_len := dict_get MESH_LEVEL_MAP level 11%nat in
  py_slice 0 code_len key_code.


(** Python's [int(x)] on a float: truncation toward zero. *)
Definition py_int (x : Q) : Z :=
  Z.quot (Qnum x) (Z.pos (Qden x)).

(** [a < b] on floats. *)
Definition Qltb (a b : Q) : bool := negb (Qle_bool b a).

(** [get_heatmap_color(val, max_val)]: the list [[r, g, b, alpha]]. *)
Definition get_heatmap_color (val max_val : Q) : list Z :=
  if Qle_bool max_val 0 then [0; 0; 255; 140] else
  let normalized := (val / max_val)%Q in
  if Qltb normalized (1 # 4) then
    [0; py_int (255 * (normalized / (1 # 4))); 255; 140]
  else if Qltb normalized (1 # 2) then
    [0; 255; py_int (255 * (1 - (normalized - (1 # 4)) / (1 # 4))); 140]
  else if Qltb normalized (3 # 4) then
    [py_int (255 * ((normalized - (1 # 2)) / (1 # 4))); 255; 0; 140]
  else
    [255; py_int (255 * (1 - (normalized - (3 # 4)) / (1 # 4))); 0; 160].



(** One row of a frame: the value in each column, [None] where the frame
    has no such column (a [KeyError]). *)
Definition row : Type := string -> option Q.

(** [df[cols].sum(axis=1)] on one row. *)
Definition sum_axis1 (r : row) (cols : list string) : option Q :=
  vals ← mapM r cols; Some (foldr Qplus 0%Q vals).

(** The age columns summed for a row (lines 444-446 and 452-454): the
    second assignment, under [if gender_suffix == "総数"], builds the same
    names again. *)
Definition age_columns (ages : list string) (gender_suffix : string) : list string :=
  let cols := (fun age => age ++ "歳人口　" ++ gender_suffix) <$> ages in
  if String.eqb gender_suffix "総数"
  then (fun age => age ++ "歳人口　総数") <$> ages
  else cols.

(** [calculated_total], [raw_value] and [display_value] of one row. *)
Definition calculated_total (r : row) (age_groups : list string) (gender_suffix : string)
    : option Q :=
  sum_axis1 r (age_columns age_groups gender_suffix).

Definition raw_value (r : row) (age_groups selected_ages : list string)
    (gender_suffix : string) : option Q :=
  match selected_ages with
  | [] => calculated_total r age_groups gender_suffix
  | _ => sum_axis1 r (age_columns selected_ages gender_suffix)
  end.

(** [(raw / total.replace(0, np.nan) * 100).fillna(0)] in the mode
    ["割合 (%)"], the raw value in the other mode. *)
Definition display_value (display_type : string) (r : row)
    (age_groups selected_ages : list string) (gender_suffix : string) : option Q :=
  total ← calculated_total r age_groups gender_suffix;
  raw ← raw_value r age_groups selected_ages gender_suffix;
  if String.eqb display_type "割合 (%)" then
    Some (if Qeq_bool total 0 then 0 else raw / total * 100)%Q
  else Some raw.


(** ** [data_processor.py]: the header of [process_census_txt_to_csv]

    Lines 26-56, from the two header lines as [readline] returns them to
    the [names] and the [dtype] keys handed to [read_csv].  A Python [str] is
    a list of characters of any alphabet [char]; [isspace] tells its white
    space and [is_comma] its comma. *)

Fixpoint lstrip {char : Type} (isspace : char -> bool) (s : list char) : list char :=
  match s with
  | [] => []
  | ch :: s' => if isspace ch then lstrip isspace s' else s
  end.

(** [str.strip()]. *)
Definition strip {char : Type} (isspace : char -> bool) (s : list char) : list char :=
  reverse (lstrip isspace (reverse (lstrip isspace s))).

(** [str.split(",")]: every comma separates, empty fields are kept, and
    the empty string gives one empty field. *)
Fixpoint split {char : Type} (is_comma : char -> bool) (s : list char) : list (list char) :=
  match s with
  | [] => [[]]
  | ch :: s' =>
      if is_comma ch then [] :: split is_comma s'
      else match split is_comma s' with
           | field :: fields => (ch :: field) :: fields
           | [] => [[ch]]
           end
  end.

(** The loop of lines 34-40: the label where it is not blank, the code
    otherwise, as many headers as the shorter line has fields. *)
Definition merge_headers {char : Type} (isspace : char -> bool)
    (line1 line2 : list (list char)) : list (list char) :=
  zip_with (fun code label =>
              let clean_label := strip isspace label in
              match clean_label with
              | [] => strip isspace code
              | _ => clean_label
              end) line1 line2.

(** [headers[i]]. *)
Definition list_index {A : Type} (l : list A) (i : nat) : result A :=
  match l !! i with
  | Some x => Ok x
  | None => Raise (IndexError "list index out of range")
  end.

(** The headers and the keys of the [dtype] dict, [headers[0]] to
    [headers[3]], from the two raw header lines. *)
Definition census_headers {char : Type} (isspace is_comma : char -> bool)
    (raw1 raw2 : list char) : result (list (list char) * list (list char)) :=
  let line1 := split is_comma (strip isspace raw1) in
  let line2 := split is_comma (strip isspace raw2) in
  let headers := merge_headers isspace line1 line2 in
  k0 ← list_index headers 0;
  k1 ← list_index headers 1;
  k2 ← list_index headers 2;
  k3 ← list_index headers 3;
  mret (headers, [k0; k1; k2; k3]).

(** * Part II: the vocabulary of the specification

    Mesh codes, levels, cell sizes and the grid, the decoding contract for
    one code, and the digits the encoder takes off along each axis.  Nothing
    here is assumed of the program: Part III proves how the program relates
    to each of these definitions. *)

(** ** Well-formed mesh codes and modes *)

Definition is_digit (c : ascii) : bool :=
  ((48 <=? nat_of_ascii c) && (nat_of_ascii c <=? 57))%nat.

Fixpoint all_digits (s : string) : bool :=
  match s with
  | EmptyString => true
  | String c s' => is_digit c && all_digits s'
  end.

(** A mesh code: decimal digits only, at least the four of level 1. *)
Definition mesh_code_ok (s : string) : Prop :=
  all_digits s = true /\ (4 <= String.length s)%nat.

Definition valid_mode (mode : string) : bool :=
  (String.eqb mode "sw" || String.eqb mode "center" || String.eqb mode "bbox")%bool.

(** ** Levels, cell sizes and the grid *)

(** The number of characters of a code of each level. *)
Definition code_length (level : Z) : nat :=
  match level with
  | 1 => 4 | 2 => 6 | 3 => 8 | 4 => 9 | 5 => 10 | 6 => 11
  | _ => 0
  end.

(** The height and the width, in degrees, of a cell of each level. *)
Definition lat_step (level : Z) : Q :=
  match level with
  | 1 => 2 # 3 | 2 => 1 # 12 | 3 => 1 # 120
  | 4 => 1 # 240 | 5 => 1 # 480 | 6 => 1 # 960
  | _ => 0
  end.

Definition lon_step (level : Z) : Q :=
  match level with
  | 1 => 1 | 2 => 1 # 8 | 3 => 1 # 80
  | 4 => 1 # 160 | 5 => 1 # 320 | 6 => 1 # 640
  | _ => 0
  end.

(** The valid mesh range: the coordinates whose level 1 indices have two
    digits, [lat * 1.5] in [10, 100) and [lon - 100] in [0, 100).  Japan
    (20 to 46 degrees north, 122 to 154 degrees east) lies inside. *)
Definition in_mesh_range (lat lon : Q) : Prop :=
  ((20 # 3) <= lat /\ lat < (200 # 3) /\ 100 <= lon /\ lon < 200)%Q.


(** ** The decoder, one code at a time

    The contract of section 4.2 of the specification, written for a single
    code: the accumulators [lat], [lon] and the cell size [lat_delta],
    [lon_delta] after each level. *)

Definition cell : Type := (Q * Q * Q * Q)%type.

(** The digit in character slot [i]; an absent slot reads as [0]. *)
Definition slot (i : nat) (c : string) : Z :=
  default 0 (parse_digits (replace_empty (py_slice i (i + 1) c))).

(** The two-digit index in the slots [a] and [a + 1]. *)
Definition index2 (a : nat) (c : string) : Z :=
  default 0 (parse_digits (py_slice a (a + 2) c)).

(** The value of a digit character. *)
Definition digit_of (ch : ascii) : Z := default 0 (parse_digits (String ch "")).

Definition cell_level1 (c : string) : cell :=
  ((inject_Z (index2 0 c) * (2 / 3))%Q, (inject_Z (index2 2 c) + 100)%Q, (2 / 3)%Q, 1%Q).

Definition cell_paired (min_len pos : nat) (parts : Q) (c : string) (x : cell) : cell :=
  let '(lat, lon, lat_delta, lon_delta) := x in
  if (min_len <=? String.length c)%nat then
    ((lat + inject_Z (slot pos c) * (lat_delta / parts))%Q,
     (lon + inject_Z (slot (pos + 1) c) * (lon_delta / parts))%Q,
     (lat_delta / parts)%Q, (lon_delta / parts)%Q)
  else x.

Definition cell_quadrant (c : string) (x : cell) (i : nat) : cell :=
  let '(lat, lon, lat_delta, lon_delta) := x in
  if (i <? String.length c)%nat then
    ((lat + (if existsb (Z.eqb (slot i c)) [3; 4]%Z then lat_delta / 2 else 0))%Q,
     (lon + (if existsb (Z.eqb (slot i c)) [2; 4]%Z then lon_delta / 2 else 0))%Q,
     (lat_delta / 2)%Q, (lon_delta / 2)%Q)
  else x.

Definition decode_cell (c : string) : cell :=
  foldl (cell_quadrant c)
    (cell_paired 8 6 10 c (cell_paired 6 4 8 c (cell_level1 c)))
    (seq 8 (String.length c - 8)).

(** The record of a cell in each mode. *)
Definition cell_record (mode : string) (x : cell) : result record :=
  let '(lat, lon, lat_delta, lon_delta) := x in
  if String.eqb mode "sw" then Ok (LatLon lat lon)
  else if String.eqb mode "center" then
    Ok (LatLon (lat + lat_delta / 2)%Q (lon + lon_delta / 2)%Q)
  else if String.eqb mode "bbox" then
    Ok (BBox lat lon (lat + lat_delta)%Q (lon + lon_delta)%Q)
  else Raise (ValueError ("Invalid mode: " ++ mode)).

(** Decoding one code by the contract. *)
Definition decode_one (c : string) (mode : string) : result record :=
  cell_record mode (decode_cell c).

(** The record of a cell in a valid mode (the mode switch cannot raise
    there; the default stands for the other modes). *)
Definition mode_record (mode : string) (x : cell) : record :=
  match cell_record mode x with
  | Ok r => r
  | Raise _ => LatLon 0 0
  end.

(** The four arrays holding, for each code [c], the cell [F c]. *)
Definition cols_of (F : string -> cell) (l : list string) : cols :=
  ((fun c => (F c).1.1.1) <$> l, (fun c => (F c).1.1.2) <$> l,
   (fun c => (F c).1.2) <$> l, (fun c => (F c).2) <$> l).

(** ** The encoder along one axis

    Both axes go through the same chain: [t1] is the coordinate in level 1
    units ([lat * 1.5], [lon - 100]); from one level to the next the integer
    part is taken off and the rest is scaled by the number of subdivisions,
    8, then 10, then 2 at every further level.  The lemmas [encode_level1]
    to [encode_loop] and [loop_state_iter] of Part III show that
    [latlon_to_meshcode] computes exactly these. *)

Definition next_t (parts : Q) (t : Q) : Q :=
  ((t - inject_Z (astype_int t)) * parts)%Q.

Definition parts_after (k : nat) : Q :=
  match k with
  | 1%nat => 8
  | 2%nat => 10
  | _ => 2
  end.

(** [axis_t k t1] is the source's [t_lat1], [t_lat2], [t_lat3] for [k] from 1
    to 3 and the loop's [t_lat] of level [k] from 4 on; [axis_m] its integer
    part [m1_lat], ... *)
Fixpoint axis_t (k : nat) (t1 : Q) : Q :=
  match k with
  | S (S _ as k') => next_t (parts_after k') (axis_t k' t1)
  | _ => t1
  end.

Definition axis_m (k : nat) (t1 : Q) : Z := astype_int (axis_t k t1).

Definition code1 (lat lon : Q) : string :=
  astype_str (axis_m 1 (lat * (3 # 2))) ++ zfill 2 (astype_str (axis_m 1 (lon - 100))).

Definition code2 (lat lon : Q) : string :=
  code1 lat lon
  ++ astype_str (axis_m 2 (lat * (3 # 2))) ++ astype_str (axis_m 2 (lon - 100)).

Definition code3 (lat lon : Q) : string :=
  code2 lat lon
  ++ astype_str (axis_m 3 (lat * (3 # 2))) ++ astype_str (axis_m 3 (lon - 100)).

(** The quadrant digit of level [k] (from 4 on). *)
Definition quadrant_digit (lat lon : Q) (k : nat) : Z :=
  quadrant_code (axis_m k (lat * (3 # 2))) (axis_m k (lon - 100)).

(** The code after [n] rounds of the level 4 to 6 loop. *)
Fixpoint quad_code (lat lon : Q) (n : nat) : string :=
  match n with
  | O => code3 lat lon
  | S n' => quad_code lat lon n' ++ astype_str (quadrant_digit lat lon (4 + n'))
  end.

(** The loop variables after [n] rounds. *)
Definition loop_state (lat lon : Q) (n : nat) : quad_state :=
  mk_quad_state (axis_t (3 + n) (lat * (3 # 2))) (axis_t (3 + n) (lon - 100))
    (axis_m (3 + n) (lat * (3 # 2))) (axis_m (3 + n) (lon - 100))
    (quad_code lat lon n).


(** ** Codes digit by digit *)

Definition digit_char (d : Z) : ascii :=
  match d with
  | 0 => "0" | 1 => "1" | 2 => "2" | 3 => "3" | 4 => "4"
  | 5 => "5" | 6 => "6" | 7 => "7" | 8 => "8" | 9 => "9"
  | _ => "?"
  end%char.

Definition two_digits (n : Z) : string :=
  String (digit_char (n / 10)) (String (digit_char (n mod 10)) "").

(** A code written digit by digit. *)
Definition digits_code (ds : list Z) : string :=
  foldr (fun d s => String (digit_char d) s) "" ds.

(** The eleven digits of a position, levels 1 to 6. *)
Definition mesh_digits (lat lon : Q) : list Z :=
  let a := axis_m 1 (lat * (3 # 2)) in
  let o := axis_m 1 (lon - 100) in
  [a / 10; a mod 10; o / 10; o mod 10;
   axis_m 2 (lat * (3 # 2)); axis_m 2 (lon - 100);
   axis_m 3 (lat * (3 # 2)); axis_m 3 (lon - 100);
   quadrant_digit lat lon 4; quadrant_digit lat lon 5; quadrant_digit lat lon 6].

(** ** The codes of the valid mesh range *)

(** The half of its parent a quadrant digit selects along each axis: 3 and
    4 are the northern quadrants, 2 and 4 the eastern ones. *)
Definition lat_bit (q : Z) : Z := if existsb (Z.eqb q) [3; 4] then 1 else 0.
Definition lon_bit (q : Z) : Z := if existsb (Z.eqb q) [2; 4] then 1 else 0.

(** A code of a level as the encoder writes them in the valid mesh range:
    the characters of the level, all digits, a level 1 latitude index of two
    digits (no leading zero), level 2 digits in 0..7 and quadrant digits
    in 1..4. *)
Definition valid_code (level : Z) (c : string) : bool :=
  (1 <=? level) && (level <=? 6)
  && Nat.eqb (String.length c) (code_length level)
  && all_digits c
  && (1 <=? slot 0 c)
  && (slot 4 c <=? 7) && (slot 5 c <=? 7)
  && forallb (fun i => (String.length c <=? i)%nat
                       || ((1 <=? slot i c) && (slot i c <=? 4)))
       [8; 9; 10]%nat.

(** The position of a corner along one axis, in level 1 units, from the
    digits of the six levels. *)
Definition axis_units (d1 d2 d3 b4 b5 b6 : Z) : Q :=
  (inject_Z d1 + inject_Z d2 * (1 # 8) + inject_Z d3 * (1 # 80)
   + inject_Z b4 * (1 # 160) + inject_Z b5 * (1 # 320) + inject_Z b6 * (1 # 640))%Q.

Definition lat_units (c : string) : Q :=
  axis_units (index2 0 c) (slot 4 c) (slot 6 c)
    (lat_bit (slot 8 c)) (lat_bit (slot 9 c)) (lat_bit (slot 10 c)).

Definition lon_units (c : string) : Q :=
  axis_units (index2 2 c) (slot 5 c) (slot 7 c)
    (lon_bit (slot 8 c)) (lon_bit (slot 9 c)) (lon_bit (slot 10 c)).

(** ** Colours *)


(** * Part III: properties *)

(** ** Sample evaluations *)

Example encode_tokyo_3 :
  latlon_to_meshcode (356813489 # 10000000) (139766029 # 1000000) 3 = Ok "53394611".
Proof. reflexivity. Qed.

Example encode_tokyo_6 :
  latlon_to_meshcode (356813489 # 10000000) (139766029 # 1000000) 6 = Ok "53394611341".
Proof. reflexivity. Qed.

Example decode_5339_sw :
  meshcode_to_latlon (Scalar "5339") "sw" = Ok (Dict (LatLon (106 # 3) 139)).
Proof. reflexivity. Qed.

(** ** Lemmas on strings and conversions *)

Lemma all_digits_substring (s : string) (a n : nat) :
  all_digits s = true -> all_digits (substring a n s) = true.
Proof.
  revert a n; induction s as [|c s IH]; intros a n H.
  - destruct a, n; reflexivity.
  - simpl in H. apply andb_prop in H as [Hc Hs].
    destruct a as [|a].
    + destruct n as [|n]; simpl; [reflexivity|].
      rewrite Hc. simpl. apply IH, Hs.
    + simpl. apply IH, Hs.
Qed.

Lemma substring_length (s : string) (a n : nat) :
  String.length (substring a n s) = Nat.min n (String.length s - a).
Proof.
  revert a n; induction s as [|c s IH]; intros a n.
  - destruct a, n; simpl; lia.
  - destruct a as [|a]; simpl.
    + destruct n as [|n]; simpl; [reflexivity|]. rewrite IH. lia.
    + apply IH.
Qed.

Lemma uint_of_char_digit (c : ascii) (d : Decimal.uint) :
  is_digit c = true -> exists d', uint_of_char c (Some d) = Some d'.
Proof.
  destruct c as [[] [] [] [] [] [] [] []]; cbv [is_digit]; simpl;
    intros H; try discriminate H; eexists; reflexivity.
Qed.

Lemma uint_of_string_digits (s : string) :
  all_digits s = true -> exists d, NilEmpty.uint_of_string s = Some d.
Proof.
  induction s as [|c s IH]; simpl; intros H.
  - eexists; reflexivity.
  - apply andb_prop in H as [Hc Hs]. destruct (IH Hs) as [d ->].
    apply uint_of_char_digit, Hc.
Qed.

Lemma parse_digits_some (s : string) :
  all_digits s = true -> s <> "" -> exists n, parse_digits s = Some n.
Proof.
  intros Hd Hne. destruct s as [|c s]; [congruence|].
  unfold parse_digits. destruct (uint_of_string_digits _ Hd) as [d ->].
  eexists; reflexivity.
Qed.

Lemma replace_empty_nonempty (s : string) : replace_empty s <> "".
Proof. destruct s; unfold replace_empty; simpl; discriminate. Qed.

Lemma replace_empty_digits (s : string) :
  all_digits s = true -> all_digits (replace_empty s) = true.
Proof. destruct s; unfold replace_empty; simpl; auto. Qed.

Lemma to_float_slot (i : nat) (c : string) :
  all_digits c = true ->
  to_float (replace_empty (py_slice i (i + 1) c)) = Ok (inject_Z (slot i c)).
Proof.
  intros Hd. unfold to_float, slot.
  destruct (parse_digits_some (replace_empty (py_slice i (i + 1) c))) as [n ->];
    [|apply replace_empty_nonempty|reflexivity].
  apply replace_empty_digits, all_digits_substring, Hd.
Qed.

Lemma to_int_slot (i : nat) (c : string) :
  all_digits c = true ->
  to_int (replace_empty (py_slice i (i + 1) c)) = Ok (slot i c).
Proof.
  intros Hd. unfold to_int, slot.
  destruct (parse_digits_some (replace_empty (py_slice i (i + 1) c))) as [n ->];
    [|apply replace_empty_nonempty|reflexivity].
  apply replace_empty_digits, all_digits_substring, Hd.
Qed.

Lemma to_float_index2 (a : nat) (c : string) :
  all_digits c = true -> (a < String.length c)%nat ->
  to_float (py_slice a (a + 2) c) = Ok (inject_Z (index2 a c)).
Proof.
  intros Hd Hlen. unfold to_float, index2.
  destruct (parse_digits_some (py_slice a (a + 2) c)) as [n ->]; [| |reflexivity].
  - apply all_digits_substring, Hd.
  - intros E. apply (f_equal String.length) in E.
    unfold py_slice in E. rewrite substring_length in E. simpl in E. lia.
Qed.

(** ** Lemmas on arrays: every array of the decoder is a map over the codes *)

Lemma Qplus_0_r_eq (q : Q) : (q + 0)%Q = q.
Proof.
  destruct q as [n d]. unfold Qplus. simpl.
  rewrite Z.mul_1_r, Z.add_0_r, Pos.mul_1_r. reflexivity.
Qed.

Lemma mapM_ok_fmap {A B C} (f : B -> result C) (g : A -> B) (h : A -> C) (l : list A) :
  Forall (fun x => f (g x) = Ok (h x)) l -> mapM f (g <$> l) = Ok (h <$> l).
Proof.
  induction 1 as [|x l Hx _ IH]; [reflexivity|].
  rewrite fmap_cons. cbn [mapM]. rewrite Hx, IH. reflexivity.
Qed.

Lemma zip_with_fmap_same {A B C D} (op : B -> C -> D) (f : A -> B) (g : A -> C)
    (l : list A) :
  zip_with op (f <$> l) (g <$> l) = (fun x => op (f x) (g x)) <$> l.
Proof. induction l as [|x l IH]; csimpl; [reflexivity|]. rewrite IH. reflexivity. Qed.

Lemma np_where_fmap {A B} (m : A -> bool) (f g : A -> B) (l : list A) :
  np_where (m <$> l) (f <$> l) (g <$> l) = (fun x => if m x then f x else g x) <$> l.
Proof.
  unfold np_where. induction l as [|x l IH]; csimpl; [reflexivity|].
  rewrite IH. reflexivity.
Qed.

Lemma np_where0_fmap {A} (m : A -> bool) (f : A -> Q) (l : list A) :
  np_where0 (m <$> l) (f <$> l) = (fun x => if m x then f x else 0%Q) <$> l.
Proof. apply zip_with_fmap_same. Qed.

Lemma np_full_fmap {A B} (v : B) (l : list A) :
  np_full (length l) v = (fun _ => v) <$> l.
Proof. unfold np_full. induction l as [|x l IH]; csimpl; [reflexivity|]. rewrite IH. reflexivity. Qed.

Lemma series_any_fmap_false {A} (m : A -> bool) (l : list A) :
  series_any (m <$> l) = false -> Forall (fun x => m x = false) l.
Proof.
  unfold series_any. induction l as [|x l IH]; csimpl; intros H; [constructor|].
  apply orb_false_elim in H as [Hx Hl]. constructor; [exact Hx|apply IH, Hl].
Qed.

Lemma fmap_ext_Forall {A B} (f g : A -> B) (l : list A) :
  Forall (fun x => f x = g x) l -> f <$> l = g <$> l.
Proof. induction 1 as [|x l Hx _ IH]; csimpl; [reflexivity|]. rewrite Hx, IH. reflexivity. Qed.

Lemma cols_of_ext (F G : string -> cell) (l : list string) :
  Forall (fun c => F c = G c) l -> cols_of F l = cols_of G l.
Proof.
  intros H. unfold cols_of.
  assert (E : forall p : cell -> Q, (fun c => p (F c)) <$> l = (fun c => p (G c)) <$> l).
  { intros p. apply fmap_ext_Forall. eapply Forall_impl; [exact H|].
    simpl. intros c ->. reflexivity. }
  rewrite (E (fun x => x.1.1.1)), (E (fun x => x.1.1.2)), (E (fun x => x.1.2)), (E snd).
  reflexivity.
Qed.

Lemma cols_fmap_eq (a1 a2 a3 a4 b1 b2 b3 b4 : string -> Q) (l : list string) :
  (forall c, a1 c = b1 c) -> (forall c, a2 c = b2 c) ->
  (forall c, a3 c = b3 c) -> (forall c, a4 c = b4 c) ->
  (a1 <$> l, a2 <$> l, a3 <$> l, a4 <$> l) = (b1 <$> l, b2 <$> l, b3 <$> l, b4 <$> l).
Proof.
  intros H1 H2 H3 H4.
  rewrite (fmap_ext_Forall a1 b1 l), (fmap_ext_Forall a2 b2 l),
    (fmap_ext_Forall a3 b3 l), (fmap_ext_Forall a4 b4 l);
    try reflexivity; apply Forall_forall; auto.
Qed.

Ltac fuse_arrays :=
  repeat first
    [ rewrite <- list_fmap_compose
    | rewrite np_where_fmap
    | rewrite np_where0_fmap
    | rewrite zip_with_fmap_same ];
  unfold compose.

Lemma paired_level_cols (l : list string) (min_len pos : nat) (parts : Q)
    (F : string -> cell) :
  Forall (fun c => all_digits c = true) l ->
  paired_level l min_len pos parts (cols_of F l)
  = Ok (cols_of (fun c => cell_paired min_len pos parts c (F c)) l).
Proof.
  intros Hd. unfold paired_level, cols_of.
  destruct (series_any _) eqn:Hany.
  - unfold astype_float, series_replace_empty, str_slice.
    rewrite <- !list_fmap_compose.
    rewrite (mapM_ok_fmap to_float (replace_empty ∘ py_slice pos (pos + 1))
               (fun c => inject_Z (slot pos c)));
      [|eapply Forall_impl; [exact Hd|]; intros c Hc; apply to_float_slot, Hc].
    simpl.
    rewrite (mapM_ok_fmap to_float (replace_empty ∘ py_slice (pos + 1) (pos + 2))
               (fun c => inject_Z (slot (pos + 1) c)));
      [|eapply Forall_impl; [exact Hd|]; intros c Hc; unfold compose;
        replace (pos + 2)%nat with (pos + 1 + 1)%nat by lia; apply to_float_slot, Hc].
    simpl. fuse_arrays. unfold mret, result_ret.
    f_equal. apply cols_fmap_eq; intros c; unfold cell_paired;
      destruct (F c) as [[[lat lon] dlat] dlon]; simpl;
      destruct (min_len <=? String.length c)%nat; simpl;
      try reflexivity; apply Qplus_0_r_eq.
  - apply series_any_fmap_false in Hany.
    unfold mret, result_ret. f_equal.
    change (cols_of F l = cols_of (fun c => cell_paired min_len pos parts c (F c)) l).
    apply cols_of_ext. eapply Forall_impl; [exact Hany|].
    simpl. intros c Hc. unfold cell_paired.
    destruct (F c) as [[[lat lon] dlat] dlon]. rewrite Hc. reflexivity.
Qed.

Lemma quadrant_step_cols (l : list string) (i : nat) (F : string -> cell) :
  Forall (fun c => all_digits c = true) l ->
  quadrant_step l i (cols_of F l)
  = Ok (cols_of (fun c => cell_quadrant c (F c) i) l).
Proof.
  intros Hd. unfold quadrant_step, cols_of.
  destruct (series_any _) eqn:Hany; simpl.
  - unfold astype_int_series, series_replace_empty, str_slice, isin.
    rewrite <- !list_fmap_compose.
    rewrite (mapM_ok_fmap to_int _ (fun c => slot i c));
      [|eapply Forall_impl; [exact Hd|]; intros c Hc; apply to_int_slot, Hc].
    simpl. fuse_arrays. unfold mret, result_ret.
    f_equal. apply cols_fmap_eq; intros c; unfold cell_quadrant;
      destruct (F c) as [[[lat lon] dlat] dlon]; simpl;
      destruct (i <? String.length c)%nat; simpl;
      try reflexivity; try apply Qplus_0_r_eq.
  - apply series_any_fmap_false in Hany.
    unfold mret, result_ret. f_equal.
    change (cols_of F l = cols_of (fun c => cell_quadrant c (F c) i) l).
    apply cols_of_ext. eapply Forall_impl; [exact Hany|].
    simpl. intros c Hc. unfold cell_quadrant.
    destruct (F c) as [[[lat lon] dlat] dlon]. rewrite Hc. reflexivity.
Qed.

Lemma for_range_quadrant_cols (l : list string) (idx : list nat) (F : string -> cell) :
  Forall (fun c => all_digits c = true) l ->
  for_range idx (quadrant_step l) (cols_of F l)
  = Ok (cols_of (fun c => foldl (cell_quadrant c) (F c) idx) l).
Proof.
  intros Hd. revert F. induction idx as [|i idx IH]; intros F; cbn [for_range].
  - reflexivity.
  - rewrite quadrant_step_cols by exact Hd. apply IH.
Qed.

Lemma mapM_ok {A C} (f : A -> result C) (h : A -> C) (l : list A) :
  Forall (fun x => f x = Ok (h x)) l -> mapM f l = Ok (h <$> l).
Proof.
  intros H. rewrite <- (list_fmap_id l) at 1. apply mapM_ok_fmap. exact H.
Qed.

Lemma mapM_result_ext {A C} (f g : A -> result C) (l : list A) :
  Forall (fun x => f x = g x) l -> mapM f l = mapM g l.
Proof.
  induction 1 as [|x l Hx _ IH]; [reflexivity|]. cbn [mapM]. rewrite Hx, IH. reflexivity.
Qed.

Lemma series_max_bound (l : list string) :
  l <> [] ->
  exists M, series_max (str_len l) = Some M /\ Forall (fun c => (String.length c <= M)%nat) l.
Proof.
  destruct l as [|c l]; [congruence|]. intros _.
  unfold str_len. rewrite fmap_cons. cbn [series_max]. eexists. split; [reflexivity|].
  revert c. induction l as [|c' l IH]; intros c; csimpl.
  - repeat constructor.
  - specialize (IH c). inversion IH as [|? ? Hc Hl]; subst.
    constructor; [lia|]. constructor; [lia|].
    eapply Forall_impl; [exact Hl|]. simpl. intros; lia.
Qed.

Lemma foldl_quadrant_past (c : string) (x : cell) (idx : list nat) :
  Forall (fun i => (String.length c <= i)%nat) idx ->
  foldl (cell_quadrant c) x idx = x.
Proof.
  induction 1 as [|i idx Hi _ IH]; simpl; [reflexivity|].
  rewrite <- IH at 2. f_equal. unfold cell_quadrant.
  destruct x as [[[lat lon] dlat] dlon].
  destruct (Nat.ltb_spec i (String.length c)); [lia|reflexivity].
Qed.

Lemma foldl_quadrant_max (c : string) (x : cell) (M : nat) :
  (String.length c <= M)%nat ->
  foldl (cell_quadrant c) x (seq 8 (M - 8))
  = foldl (cell_quadrant c) x (seq 8 (String.length c - 8)).
Proof.
  intros H.
  replace (M - 8)%nat with ((String.length c - 8) + (M - 8 - (String.length c - 8)))%nat by lia.
  rewrite seq_app, foldl_app. apply foldl_quadrant_past.
  apply Forall_forall. intros i Hi. apply list_elem_of_In, in_seq in Hi. lia.
Qed.

Lemma mode_frame_cols (F : string -> cell) (l : list string) (mode : string) :
  l <> [] ->
  mode_frame mode (cols_of F l) = mapM (fun c => cell_record mode (F c)) l.
Proof.
  intros Hne. unfold mode_frame, cols_of.
  destruct (String.eqb mode "sw") eqn:Hsw;
    [|destruct (String.eqb mode "center") eqn:Hce;
      [|destruct (String.eqb mode "bbox") eqn:Hbb]].
  4: { destruct l as [|c l]; [congruence|]. cbn [mapM].
       unfold cell_record. destruct (F c) as [[[lat lon] dlat] dlon].
       rewrite Hsw, Hce, Hbb. reflexivity. }
  all: symmetry; fuse_arrays; unfold mret, result_ret;
    apply mapM_ok, Forall_forall; intros c _; unfold cell_record;
    destruct (F c) as [[[lat lon] dlat] dlon]; rewrite ?Hsw, ?Hce, ?Hbb; reflexivity.
Qed.

(** The vectorized decoder computes, for a non-empty batch of mesh codes,
    what the contract gives for each code, in order. *)
Theorem vectorized_decode_one (l : list string) (mode : string) :
  l <> [] -> Forall mesh_code_ok l ->
  _meshcode_to_latlon_vectorized l mode = mapM (fun c => decode_one c mode) l.
Proof.
  intros Hne Hok.
  assert (Hd : Forall (fun c => all_digits c = true) l).
  { eapply Forall_impl; [exact Hok|]. intros c [H _]. exact H. }
  unfold _meshcode_to_latlon_vectorized, astype_float, str_slice.
  rewrite (mapM_ok_fmap to_float (py_slice 0 2) (fun c => inject_Z (index2 0 c)));
    [|eapply Forall_impl; [exact Hok|]; intros c [H1 H2]; apply (to_float_index2 0); [exact H1|lia]].
  cbn [mbind result_bind].
  rewrite (mapM_ok_fmap to_float (py_slice 2 4) (fun c => inject_Z (index2 2 c)));
    [|eapply Forall_impl; [exact Hok|]; intros c [H1 H2]; apply (to_float_index2 2); [exact H1|lia]].
  cbn [mbind result_bind].
  rewrite !np_full_fmap. fuse_arrays.
  change (((fun x => inject_Z (index2 0 x) * (2 / 3))%Q <$> l,
           (fun x => inject_Z (index2 2 x) + 100)%Q <$> l,
           (fun _ : string => (2 / 3)%Q) <$> l, (fun _ : string => 1%Q) <$> l))
    with (cols_of cell_level1 l).
  rewrite paired_level_cols by exact Hd. cbn [mbind result_bind].
  rewrite paired_level_cols by exact Hd. cbn [mbind result_bind].
  destruct (series_max_bound l Hne) as (M & -> & HM). cbn [int_of_max mbind result_bind].
  rewrite for_range_quadrant_cols by exact Hd. cbn [mbind result_bind].
  rewrite mode_frame_cols by exact Hne.
  apply mapM_result_ext. eapply Forall_impl; [exact HM|].
  simpl. intros c Hc. unfold decode_one, decode_cell.
  rewrite (foldl_quadrant_max c _ M Hc). reflexivity.
Qed.

(** *** Consequences for [meshcode_to_latlon] *)

Lemma cell_record_valid (mode : string) (x : cell) :
  valid_mode mode = true -> cell_record mode x = Ok (mode_record mode x).
Proof.
  unfold valid_mode, mode_record, cell_record. destruct x as [[[lat lon] dlat] dlon].
  destruct (String.eqb mode "sw"); [reflexivity|].
  destruct (String.eqb mode "center"); [reflexivity|].
  destruct (String.eqb mode "bbox"); [reflexivity|discriminate].
Qed.

Lemma cell_record_invalid (mode : string) (x : cell) :
  valid_mode mode = false ->
  cell_record mode x = Raise (ValueError ("Invalid mode: " ++ mode)).
Proof.
  unfold valid_mode, cell_record. destruct x as [[[lat lon] dlat] dlon].
  destruct (String.eqb mode "sw"); [discriminate|].
  destruct (String.eqb mode "center"); [discriminate|].
  destruct (String.eqb mode "bbox"); [discriminate|reflexivity].
Qed.

Lemma scalar_decode_one (c : string) (mode : string) :
  mesh_code_ok c ->
  meshcode_to_latlon (Scalar c) mode = r ← decode_one c mode; mret (Dict r).
Proof.
  intros Hc. unfold meshcode_to_latlon.
  rewrite vectorized_decode_one; [|discriminate|constructor; [exact Hc|constructor]].
  cbn [mapM]. destruct (decode_one c mode); reflexivity.
Qed.

Lemma batch_decode_one (l : list string) (mode : string) :
  l <> [] -> Forall mesh_code_ok l -> valid_mode mode = true ->
  meshcode_to_latlon (Batch l) mode
  = Ok (DataFrame ((fun c => mode_record mode (decode_cell c)) <$> l)).
Proof.
  intros Hne Hok Hm. unfold meshcode_to_latlon.
  rewrite vectorized_decode_one by assumption.
  rewrite (mapM_ok _ (fun c => mode_record mode (decode_cell c))); [reflexivity|].
  apply Forall_forall. intros c _. apply cell_record_valid, Hm.
Qed.

(** Batch/scalar equivalence on non-empty batches: as many records as
    codes, the record at each position being the one the code decodes to
    alone, which a scalar call returns as a single dict. *)
Theorem batch_matches_scalar (l : list string) (mode : string) :
  l <> [] -> Forall mesh_code_ok l -> valid_mode mode = true ->
  exists rows,
    meshcode_to_latlon (Batch l) mode = Ok (DataFrame rows) /\
    length rows = length l /\
    forall (i : nat) (c : string), l !! i = Some c ->
      exists r, rows !! i = Some r /\ meshcode_to_latlon (Scalar c) mode = Ok (Dict r).
Proof.
  intros Hne Hok Hm. eexists. split; [apply batch_decode_one; assumption|].
  split; [apply length_fmap|].
  intros i c Hi. exists (mode_record mode (decode_cell c)). split.
  - rewrite list_lookup_fmap, Hi. reflexivity.
  - rewrite scalar_decode_one.
    + unfold decode_one. rewrite cell_record_valid by exact Hm. reflexivity.
    + eapply Forall_lookup_1; [exact Hok|exact Hi].
Qed.

(** Mode validation on non-empty batches: a valid mode gives the whole
    frame, any other mode raises for the whole batch. *)
Theorem mode_validation_nonempty (l : list string) (mode : string) :
  l <> [] -> Forall mesh_code_ok l ->
  (valid_mode mode = true ->
     exists rows, meshcode_to_latlon (Batch l) mode = Ok (DataFrame rows) /\
                  length rows = length l) /\
  (valid_mode mode = false ->
     meshcode_to_latlon (Batch l) mode = Raise (ValueError ("Invalid mode: " ++ mode))).
Proof.
  intros Hne Hok. split; intros Hm.
  - eexists. split; [apply batch_decode_one; assumption|apply length_fmap].
  - unfold meshcode_to_latlon. rewrite vectorized_decode_one by assumption.
    destruct l as [|c l]; [congruence|]. cbn [mapM].
    unfold decode_one. rewrite cell_record_invalid by exact Hm. reflexivity.
Qed.

(** C4, at the empty batch: a batch of no codes does not decode to a frame
    of no records.  [Series.max()] of the empty length column is [NaN], and
    [int(max_len)] raises before any mode is looked at. *)
Theorem C4_empty_batch_raises (mode : string) :
  meshcode_to_latlon (Batch []) mode
  = Raise (ValueError "cannot convert float NaN to integer").
Proof. reflexivity. Qed.

(** C6, at the empty batch: the call fails although the mode is valid, and
    with an invalid mode the error raised is not the mode error. *)
Theorem C6_empty_batch_valid_mode_raises :
  valid_mode "bbox" = true /\
  _meshcode_to_latlon_vectorized [] "bbox"
  = Raise (ValueError "cannot convert float NaN to integer") /\
  valid_mode "north" = false /\
  _meshcode_to_latlon_vectorized [] "north"
  = Raise (ValueError "cannot convert float NaN to integer").
Proof. repeat split. Qed.

(** ** Codes cut short *)

Lemma substring_prefix (s : string) (a m n : nat) :
  (a + m <= n)%nat -> substring a m (substring 0 n s) = substring a m s.
Proof.
  revert a m n. induction s as [|ch s IH]; intros a m n H.
  - destruct n; reflexivity.
  - destruct n as [|n].
    + assert (a = 0%nat) by lia. assert (m = 0%nat) by lia. subst. reflexivity.
    + cbn [substring]. destruct a as [|a].
      * destruct m as [|m]; [reflexivity|]. cbn [substring]. f_equal. apply IH. lia.
      * cbn [substring]. apply IH. lia.
Qed.

Lemma slot_prefix (c : string) (i n : nat) :
  (i + 1 <= n)%nat -> slot i (py_slice 0 n c) = slot i c.
Proof.
  intros H. unfold slot, py_slice.
  rewrite Nat.sub_0_r, substring_prefix by lia. reflexivity.
Qed.

Lemma index2_prefix (c : string) (a n : nat) :
  (a + 2 <= n)%nat -> index2 a (py_slice 0 n c) = index2 a c.
Proof.
  intros H. unfold index2, py_slice.
  rewrite Nat.sub_0_r, substring_prefix by lia. reflexivity.
Qed.

Lemma cell_level1_prefix (c : string) (n : nat) :
  (4 <= n)%nat -> cell_level1 (py_slice 0 n c) = cell_level1 c.
Proof.
  intros H. unfold cell_level1. rewrite !index2_prefix by lia. reflexivity.
Qed.

Lemma prefix_length (c : string) (n : nat) :
  (n <= String.length c)%nat -> String.length (py_slice 0 n c) = n.
Proof. intros H. unfold py_slice. rewrite substring_length. lia. Qed.

Lemma prefix_ok (c : string) (n : nat) :
  all_digits c = true -> (4 <= n <= String.length c)%nat -> mesh_code_ok (py_slice 0 n c).
Proof.
  intros Hd H. split.
  - apply all_digits_substring, Hd.
  - rewrite prefix_length; lia.
Qed.

Lemma decode_cell_length5 (c : string) :
  String.length c = 5%nat -> decode_cell c = decode_cell (py_slice 0 4 c).
Proof.
  intros H. unfold decode_cell, cell_paired.
  rewrite (prefix_length c 4), H by lia. cbn [Nat.sub seq foldl Nat.leb].
  rewrite cell_level1_prefix by lia.
  destruct (cell_level1 c) as [[[lat lon] dlat] dlon]. reflexivity.
Qed.

Lemma decode_cell_length7 (c : string) :
  String.length c = 7%nat -> decode_cell c = decode_cell (py_slice 0 6 c).
Proof.
  intros H. unfold decode_cell, cell_paired.
  rewrite (prefix_length c 6), H by lia. cbn [Nat.sub seq foldl Nat.leb].
  rewrite cell_level1_prefix by lia.
  destruct (cell_level1 c) as [[[lat lon] dlat] dlon].
  rewrite !slot_prefix by lia. reflexivity.
Qed.

(** C9. A code of five digits decodes, in every mode, to what its first four
    characters decode to, and a code of seven digits to what its first six
    decode to: the unpaired digit adds no offset and leaves the cell size
    of the level below. *)
Theorem unpaired_digit_discard (c : string) (mode : string) :
  all_digits c = true ->
  (String.length c = 5%nat ->
     meshcode_to_latlon (Scalar c) mode = meshcode_to_latlon (Scalar (py_slice 0 4 c)) mode) /\
  (String.length c = 7%nat ->
     meshcode_to_latlon (Scalar c) mode = meshcode_to_latlon (Scalar (py_slice 0 6 c)) mode).
Proof.
  intros Hd. split; intros Hlen.
  - rewrite !scalar_decode_one; [|apply prefix_ok; [exact Hd|lia]|split; [exact Hd|lia]].
    unfold decode_one. rewrite decode_cell_length5 by exact Hlen. reflexivity.
  - rewrite !scalar_decode_one; [|apply prefix_ok; [exact Hd|lia]|split; [exact Hd|lia]].
    unfold decode_one. rewrite decode_cell_length7 by exact Hlen. reflexivity.
Qed.

Lemma unpaired_digit_discard_witness :
  meshcode_to_latlon (Scalar "53394") "bbox" = meshcode_to_latlon (Scalar "5339") "bbox" /\
  meshcode_to_latlon (Scalar "5339461") "center" = meshcode_to_latlon (Scalar "533946") "center".
Proof.
  split.
  - apply (proj1 (unpaired_digit_discard "53394" "bbox" eq_refl)). reflexivity.
  - apply (proj2 (unpaired_digit_discard "5339461" "center" eq_refl)). reflexivity.
Defined.

(** ** Absent slots *)

Lemma absent_slot_empty (c : string) (i : nat) :
  (String.length c <= i)%nat -> py_slice i (i + 1) c = "".
Proof.
  intros H. unfold py_slice.
  assert (E : String.length (substring i (i + 1 - i) c) = 0%nat)
    by (rewrite substring_length; lia).
  destruct (substring i (i + 1 - i) c); [reflexivity|discriminate E].
Qed.

(** C8. Silent zero.  In a batch of mesh codes of any lengths, and so for a
    code decoded alone, nothing raises; a character slot beyond the end of a
    code reads as the digit 0; and a code too short for a level, whether
    the level is absent or cut in the middle, keeps its accumulated
    latitude and longitude (and its cell size) through that level's step.
    So a code of fewer than 6 characters decodes to its level 1 corner, and
    a code of 6 or 7 characters to its level 2 corner. *)
Theorem silent_zero (l : list string) (c : string) (mode : string) (F : string -> cell) :
  Forall mesh_code_ok l -> c ∈ l -> valid_mode mode = true ->
  is_ok (meshcode_to_latlon (Batch l) mode) = true /\
  is_ok (meshcode_to_latlon (Scalar c) mode) = true /\
  (forall i, (String.length c <= i)%nat ->
     to_float (replace_empty (py_slice i (i + 1) c)) = Ok 0%Q /\
     to_int (replace_empty (py_slice i (i + 1) c)) = Ok 0) /\
  (forall min_len pos parts, (String.length c < min_len)%nat ->
     exists G, paired_level l min_len pos parts (cols_of F l) = Ok (cols_of G l) /\ G c = F c) /\
  (forall i, (String.length c <= i)%nat ->
     exists G, quadrant_step l i (cols_of F l) = Ok (cols_of G l) /\ G c = F c) /\
  ((String.length c < 6)%nat ->
     meshcode_to_latlon (Scalar c) "sw"
     = Ok (Dict (LatLon (inject_Z (index2 0 c) * (2 / 3)) (inject_Z (index2 2 c) + 100)))) /\
  ((6 <= String.length c < 8)%nat ->
     meshcode_to_latlon (Scalar c) "sw"
     = Ok (Dict (LatLon
                   (inject_Z (index2 0 c) * (2 / 3) + inject_Z (slot 4 c) * (2 / 3 / 8))
                   (inject_Z (index2 2 c) + 100 + inject_Z (slot 5 c) * (1 / 8))))).
Proof.
  intros Hok Hc Hm.
  assert (Hne : l <> []) by (intros ->; inversion Hc).
  assert (Hcok : mesh_code_ok c) by (eapply Forall_forall in Hok; eauto).
  assert (Hd : Forall (fun c => all_digits c = true) l).
  { eapply Forall_impl; [exact Hok|]. intros x [H _]. exact H. }
  split; [rewrite batch_decode_one by assumption; reflexivity|].
  split.
  { rewrite scalar_decode_one by exact Hcok. unfold decode_one.
    rewrite cell_record_valid by exact Hm. reflexivity. }
  split.
  { intros i Hi. rewrite absent_slot_empty by exact Hi. split; reflexivity. }
  split.
  { intros min_len pos parts Hlen. eexists. split; [apply paired_level_cols, Hd|].
    unfold cell_paired. destruct (F c) as [[[lat lon] dlat] dlon].
    destruct (Nat.leb_spec min_len (String.length c)); [lia|reflexivity]. }
  split.
  { intros i Hi. eexists. split; [apply quadrant_step_cols, Hd|].
    unfold cell_quadrant. destruct (F c) as [[[lat lon] dlat] dlon].
    destruct (Nat.ltb_spec i (String.length c)); [lia|reflexivity]. }
  split; intros Hlen; rewrite scalar_decode_one by exact Hcok;
    unfold decode_one, decode_cell, cell_paired, cell_level1;
    replace (String.length c - 8)%nat with 0%nat by lia; cbn [seq foldl].
  - destruct (Nat.leb_spec 6 (String.length c)); [lia|].
    destruct (Nat.leb_spec 8 (String.length c)); [lia|]. reflexivity.
  - destruct (Nat.leb_spec 6 (String.length c)); [|lia].
    destruct (Nat.leb_spec 8 (String.length c)); [lia|]. reflexivity.
Qed.

Lemma silent_zero_witness :
  is_ok (meshcode_to_latlon (Batch ["5339"; "53394611341"; "53394"]) "sw") = true /\
  is_ok (meshcode_to_latlon (Scalar "53394") "sw") = true.
Proof.
  assert (Hok : Forall mesh_code_ok ["5339"; "53394611341"; "53394"]).
  { repeat constructor; simpl; lia. }
  assert (Hin : "53394" ∈ ["5339"; "53394611341"; "53394"]).
  { do 2 apply list_elem_of_further. apply list_elem_of_here. }
  pose proof (silent_zero _ "53394" "sw" cell_level1 Hok Hin eq_refl) as (H1 & H2 & _).
  split; [exact H1|exact H2].
Defined.

(** ** Cell sizes *)

Lemma level_cases (level : Z) :
  1 <= level <= 6 ->
  level = 1 \/ level = 2 \/ level = 3 \/ level = 4 \/ level = 5 \/ level = 6.
Proof. lia. Qed.




(** ** The encoder: truncation and digits *)

(** On a non-negative number the cast [astype(int)] is the floor. *)
Lemma astype_int_floor (x : Q) : (0 <= x)%Q -> astype_int x = Qfloor x.
Proof.
  destruct x as [n d]. unfold Qle, astype_int, Qfloor. simpl. intros H.
  apply Z.quot_div_nonneg; lia.
Qed.

Lemma astype_int_sandwich (x : Q) :
  (0 <= x -> inject_Z (astype_int x) <= x /\ x < inject_Z (astype_int x) + 1)%Q.
Proof.
  intros H. rewrite astype_int_floor by exact H. split.
  - apply Qfloor_le.
  - pose proof (Qlt_floor x) as Hlt. rewrite inject_Z_plus in Hlt. exact Hlt.
Qed.

Lemma astype_int_range (x : Q) (n : Z) :
  (0 <= x)%Q -> (x < inject_Z n)%Q -> (0 <= astype_int x < n)%Z.
Proof.
  intros H0 Hn. rewrite astype_int_floor by exact H0. split.
  - change 0%Z with (Qfloor 0). apply Qfloor_resp_le, H0.
  - rewrite Zlt_Qlt. eapply Qle_lt_trans; [apply Qfloor_le|exact Hn].
Qed.

(** A property checked on every integer of a range. *)
Lemma Z_range_forall (P : Z -> bool) (lo : Z) (len : nat) :
  forallb P (map (fun i => lo + Z.of_nat i)%Z (seq 0 len)) = true ->
  forall n, (lo <= n < lo + Z.of_nat len)%Z -> P n = true.
Proof.
  intros H n Hn. rewrite forallb_forall in H. apply H.
  apply in_map_iff. exists (Z.to_nat (n - lo)). split; [lia|].
  apply in_seq. lia.
Qed.

Lemma astype_str_digit (d : Z) :
  (0 <= d <= 9)%Z -> astype_str d = String (digit_char d) "".
Proof.
  intros H.
  apply String.eqb_eq.
  apply (Z_range_forall (fun d => String.eqb (astype_str d) (String (digit_char d) "")) 0 10);
    [reflexivity|lia].
Qed.

Lemma astype_str_two (n : Z) :
  (10 <= n <= 99)%Z -> astype_str n = two_digits n.
Proof.
  intros H. apply String.eqb_eq.
  apply (Z_range_forall (fun n => String.eqb (astype_str n) (two_digits n)) 10 90);
    [vm_compute; reflexivity|lia].
Qed.

Lemma zfill_two (n : Z) :
  (0 <= n <= 99)%Z -> zfill 2 (astype_str n) = two_digits n.
Proof.
  intros H. apply String.eqb_eq.
  apply (Z_range_forall (fun n => String.eqb (zfill 2 (astype_str n)) (two_digits n)) 0 100);
    [vm_compute; reflexivity|lia].
Qed.

Lemma is_digit_char (d : Z) : (0 <= d <= 9)%Z -> is_digit (digit_char d) = true.
Proof.
  intros H. apply (Z_range_forall (fun d => is_digit (digit_char d)) 0 10);
    [reflexivity|lia].
Qed.

Lemma parse_digit_char (d : Z) :
  (0 <= d <= 9)%Z -> parse_digits (String (digit_char d) "") = Some d.
Proof.
  intros H.
  assert (E : (match parse_digits (String (digit_char d) "") with
               | Some m => m =? d | None => false end)%Z = true).
  { apply (Z_range_forall (fun d => match parse_digits (String (digit_char d) "") with
                                    | Some m => m =? d | None => false end)%Z 0 10);
      [reflexivity|lia]. }
  destruct (parse_digits _) as [m|]; [|discriminate E].
  apply Z.eqb_eq in E. subst. reflexivity.
Qed.

Lemma parse_two_digits (n : Z) :
  (0 <= n <= 99)%Z -> parse_digits (two_digits n) = Some n.
Proof.
  intros H.
  assert (E : (match parse_digits (two_digits n) with
               | Some m => m =? n | None => false end)%Z = true).
  { apply (Z_range_forall (fun n => match parse_digits (two_digits n) with
                                    | Some m => m =? n | None => false end)%Z 0 100);
      [vm_compute; reflexivity|lia]. }
  destruct (parse_digits _) as [m|]; [|discriminate E].
  apply Z.eqb_eq in E. subst. reflexivity.
Qed.

(** Reading the slots of a code given character by character. *)
Lemma slot_here (ch : ascii) (s : string) :
  slot 0 (String ch s) = default 0 (parse_digits (String ch "")).
Proof. unfold slot, py_slice. cbn [substring Nat.add Nat.sub]. destruct s; reflexivity. Qed.

Lemma slot_next (i : nat) (ch : ascii) (s : string) :
  slot (S i) (String ch s) = slot i s.
Proof.
  unfold slot, py_slice. replace (S i + 1 - S i)%nat with (i + 1 - i)%nat by lia.
  reflexivity.
Qed.

Lemma slot_digit_char (d : Z) (s : string) :
  (0 <= d <= 9)%Z -> slot 0 (String (digit_char d) s) = d.
Proof. intros H. rewrite slot_here, parse_digit_char by exact H. reflexivity. Qed.

Lemma index2_here (n : Z) (s : string) :
  (0 <= n <= 99)%Z -> index2 0 (two_digits n ++ s) = n.
Proof.
  intros H. unfold index2, py_slice, two_digits.
  cbn [append substring Nat.add Nat.sub].
  replace (substring 0 0 s) with "" by (destruct s; reflexivity).
  fold (two_digits n). rewrite parse_two_digits by exact H. reflexivity.
Qed.

Lemma index2_next (a : nat) (ch : ascii) (s : string) :
  index2 (S a) (String ch s) = index2 a s.
Proof.
  unfold index2, py_slice. replace (S a + 2 - S a)%nat with (a + 2 - a)%nat by lia.
  reflexivity.
Qed.

(** ** The encoder, level by level *)

Lemma loop_state_iter (lat lon : Q) (n : nat) :
  Nat.iter n quadrant_iter (loop_state lat lon 0) = loop_state lat lon n.
Proof.
  induction n as [|n IH]; [reflexivity|].
  rewrite Nat.iter_succ, IH. reflexivity.
Qed.

Lemma encode_level1 (lat lon : Q) : latlon_to_meshcode lat lon 1 = Ok (code1 lat lon).
Proof. reflexivity. Qed.

Lemma encode_level2 (lat lon : Q) : latlon_to_meshcode lat lon 2 = Ok (code2 lat lon).
Proof. reflexivity. Qed.

Lemma encode_level3 (lat lon : Q) : latlon_to_meshcode lat lon 3 = Ok (code3 lat lon).
Proof. reflexivity. Qed.

(** Outside 1, 2, 3 every level runs the loop, [level - 3] times and not at
    all when that is not positive. *)
Lemma encode_loop (lat lon : Q) (level : Z) :
  level <> 1 -> level <> 2 -> level <> 3 ->
  latlon_to_meshcode lat lon level = Ok (quad_code lat lon (Z.to_nat (level - 3))).
Proof.
  intros H1 H2 H3. unfold latlon_to_meshcode.
  destruct (Z.eqb_spec level 1); [contradiction|].
  destruct (Z.eqb_spec level 2); [contradiction|].
  destruct (Z.eqb_spec level 3); [contradiction|].
  change (mk_quad_state _ _ _ _ _) with (loop_state lat lon 0).
  rewrite loop_state_iter. reflexivity.
Qed.

(** The encoder has no failing path. *)
Lemma encode_total (lat lon : Q) (level : Z) :
  exists code, latlon_to_meshcode lat lon level = Ok code.
Proof.
  destruct (Z.eq_dec level 1) as [->|H1]; [eexists; apply encode_level1|].
  destruct (Z.eq_dec level 2) as [->|H2]; [eexists; apply encode_level2|].
  destruct (Z.eq_dec level 3) as [->|H3]; [eexists; apply encode_level3|].
  eexists. apply encode_loop; assumption.
Qed.

(** *** Ranges along an axis *)

Lemma parts_after_cases (k : nat) :
  parts_after k = 8%Q \/ parts_after k = 10%Q \/ parts_after k = 2%Q.
Proof. destruct k as [|[|[|k]]]; simpl; auto. Qed.

Lemma next_t_range (parts t : Q) :
  (0 <= t)%Q -> parts = 8%Q \/ parts = 10%Q \/ parts = 2%Q ->
  (0 <= next_t parts t /\ next_t parts t < parts)%Q.
Proof.
  intros Ht Hp. destruct (astype_int_sandwich t Ht) as [Hlo Hhi].
  unfold next_t. destruct Hp as [-> | [-> | ->]]; split; lra.
Qed.

Lemma axis_t_nonneg (k : nat) (t1 : Q) : (0 <= t1)%Q -> (0 <= axis_t k t1)%Q.
Proof.
  intros H. induction k as [|k IH]; [exact H|].
  destruct k as [|k]; [exact H|].
  change (axis_t (S (S k)) t1) with (next_t (parts_after (S k)) (axis_t (S k) t1)).
  apply next_t_range; [exact IH|apply parts_after_cases].
Qed.

Lemma axis_t_step (k : nat) (t1 : Q) :
  (1 <= k)%nat ->
  axis_t (S k) t1 = ((axis_t k t1 - inject_Z (axis_m k t1)) * parts_after k)%Q.
Proof. intros H. destruct k as [|k]; [lia|reflexivity]. Qed.

Lemma axis_m_sandwich (k : nat) (t1 : Q) :
  (0 <= t1)%Q ->
  (inject_Z (axis_m k t1) <= axis_t k t1 /\ axis_t k t1 < inject_Z (axis_m k t1) + 1)%Q.
Proof. intros H. apply astype_int_sandwich, axis_t_nonneg, H. Qed.

Lemma axis_t_below (k : nat) (t1 : Q) :
  (0 <= t1)%Q -> (1 <= k)%nat -> (axis_t (S k) t1 < parts_after k)%Q.
Proof.
  intros H Hk. destruct k as [|k]; [lia|].
  change (axis_t (S (S k)) t1) with (next_t (parts_after (S k)) (axis_t (S k) t1)).
  apply next_t_range; [apply axis_t_nonneg, H|apply parts_after_cases].
Qed.

Lemma axis_m_range (k : nat) (t1 : Q) (n : Z) :
  (0 <= t1)%Q -> (1 <= k)%nat -> parts_after k = inject_Z n ->
  (0 <= axis_m (S k) t1 < n)%Z.
Proof.
  intros H Hk Hn. apply astype_int_range; [apply axis_t_nonneg, H|].
  rewrite <- Hn. apply axis_t_below; assumption.
Qed.

Lemma axis_m_bit (k : nat) (t1 : Q) :
  (0 <= t1)%Q -> (4 <= k)%nat -> (0 <= axis_m k t1 <= 1)%Z.
Proof.
  intros H Hk. destruct k as [|k]; [lia|].
  assert (0 <= axis_m (S k) t1 < 2)%Z; [|lia].
  apply axis_m_range; [exact H|lia|].
  destruct k as [|[|[|k]]]; try lia; reflexivity.
Qed.

Lemma quadrant_digit_range (lat lon : Q) (k : nat) :
  (0 <= lat * (3 # 2))%Q -> (0 <= lon - 100)%Q -> (4 <= k)%nat ->
  (1 <= quadrant_digit lat lon k <= 4)%Z.
Proof.
  intros Ha Ho Hk. unfold quadrant_digit, quadrant_code.
  pose proof (axis_m_bit k _ Ha Hk). pose proof (axis_m_bit k _ Ho Hk). lia.
Qed.

Lemma astype_int_lower (x : Q) (n : Z) :
  (0 <= x)%Q -> (inject_Z n <= x)%Q -> (n <= astype_int x)%Z.
Proof.
  intros H0 Hn. rewrite astype_int_floor by exact H0.
  rewrite <- (Qfloor_Z n). apply Qfloor_resp_le, Hn.
Qed.

Lemma range_lat_units (lat lon : Q) :
  in_mesh_range lat lon -> (0 <= lat * (3 # 2))%Q /\ (10 <= axis_m 1 (lat * (3 # 2)) <= 99)%Z.
Proof.
  intros (H1 & H2 & _). assert (H0 : (0 <= lat * (3 # 2))%Q) by lra.
  split; [exact H0|]. unfold axis_m, axis_t.
  pose proof (astype_int_range (lat * (3 # 2)) 100 H0) as Hr.
  pose proof (astype_int_lower (lat * (3 # 2)) 10 H0) as Hl.
  assert (lat * (3 # 2) < inject_Z 100)%Q by (unfold inject_Z; lra).
  assert (inject_Z 10 <= lat * (3 # 2))%Q by (unfold inject_Z; lra).
  specialize (Hr ltac:(assumption)). specialize (Hl ltac:(assumption)). lia.
Qed.

Lemma range_lon_units (lat lon : Q) :
  in_mesh_range lat lon -> (0 <= lon - 100)%Q /\ (0 <= axis_m 1 (lon - 100) <= 99)%Z.
Proof.
  intros (_ & _ & H1 & H2). assert (H0 : (0 <= lon - 100)%Q) by lra.
  split; [exact H0|]. unfold axis_m, axis_t.
  pose proof (astype_int_range (lon - 100) 100 H0) as Hr.
  assert (lon - 100 < inject_Z 100)%Q by (unfold inject_Z; lra).
  specialize (Hr ltac:(assumption)). lia.
Qed.

(** Inside the range the code of each level is made of the first digits of
    the position, as many as the level has characters. *)
Lemma encode_digits (lat lon : Q) (level : Z) :
  in_mesh_range lat lon -> 1 <= level <= 6 ->
  latlon_to_meshcode lat lon level
  = Ok (digits_code (take (code_length level) (mesh_digits lat lon))).
Proof.
  intros Hr Hl.
  destruct (range_lat_units lat lon Hr) as [Ha0 Ha1].
  destruct (range_lon_units lat lon Hr) as [Ho0 Ho1].
  pose proof (axis_m_range 1 _ 8 Ha0 ltac:(lia) eq_refl) as Ha2.
  pose proof (axis_m_range 1 _ 8 Ho0 ltac:(lia) eq_refl) as Ho2.
  pose proof (axis_m_range 2 _ 10 Ha0 ltac:(lia) eq_refl) as Ha3.
  pose proof (axis_m_range 2 _ 10 Ho0 ltac:(lia) eq_refl) as Ho3.
  pose proof (quadrant_digit_range lat lon 4 Ha0 Ho0 ltac:(lia)) as Hq4.
  pose proof (quadrant_digit_range lat lon 5 Ha0 Ho0 ltac:(lia)) as Hq5.
  pose proof (quadrant_digit_range lat lon 6 Ha0 Ho0 ltac:(lia)) as Hq6.
  assert (E1 : code1 lat lon = digits_code (take 4 (mesh_digits lat lon))).
  { unfold code1. rewrite astype_str_two, zfill_two by lia. reflexivity. }
  assert (E2 : code2 lat lon = digits_code (take 6 (mesh_digits lat lon))).
  { unfold code2. rewrite E1, !astype_str_digit by lia. reflexivity. }
  assert (E3 : code3 lat lon = digits_code (take 8 (mesh_digits lat lon))).
  { unfold code3. rewrite E2, !astype_str_digit by lia. reflexivity. }
  destruct (level_cases level Hl) as [-> | [-> | [-> | [-> | [-> | ->]]]]].
  - rewrite encode_level1, E1. reflexivity.
  - rewrite encode_level2, E2. reflexivity.
  - rewrite encode_level3, E3. reflexivity.
  - rewrite encode_loop by lia. change (Z.to_nat (4 - 3)) with 1%nat. cbn [quad_code Nat.add].
    rewrite E3, !astype_str_digit by lia. reflexivity.
  - rewrite encode_loop by lia. change (Z.to_nat (5 - 3)) with 2%nat. cbn [quad_code Nat.add].
    rewrite E3, !astype_str_digit by lia. reflexivity.
  - rewrite encode_loop by lia. change (Z.to_nat (6 - 3)) with 3%nat. cbn [quad_code Nat.add].
    rewrite E3, !astype_str_digit by lia. reflexivity.
Qed.

(** ** Levels outside 1..6 *)

Lemma string_app_length (s t : string) :
  String.length (s ++ t) = (String.length s + String.length t)%nat.
Proof. induction s as [|c s IH]; simpl; [reflexivity|]. rewrite IH. reflexivity. Qed.

Lemma code3_digits (lat lon : Q) :
  in_mesh_range lat lon -> code3 lat lon = digits_code (take 8 (mesh_digits lat lon)).
Proof.
  intros Hr. pose proof (encode_digits lat lon 3 Hr ltac:(lia)) as E.
  rewrite encode_level3 in E. injection E as E. exact E.
Qed.

Lemma quad_code_length (lat lon : Q) (n : nat) :
  in_mesh_range lat lon -> String.length (quad_code lat lon n) = (8 + n)%nat.
Proof.
  intros Hr. induction n as [|n IH].
  - cbn [quad_code]. rewrite code3_digits by exact Hr. reflexivity.
  - cbn [quad_code]. rewrite string_app_length, IH.
    destruct (range_lat_units lat lon Hr) as [Ha0 _].
    destruct (range_lon_units lat lon Hr) as [Ho0 _].
    pose proof (quadrant_digit_range lat lon (4 + n) Ha0 Ho0 ltac:(lia)).
    rewrite astype_str_digit by lia. simpl. lia.
Qed.



(** C10, amended.  No level makes the encoder raise.  A level below 1
    returns exactly what level 3 returns, for every coordinate pair.  Inside
    the valid mesh range that code has 8 characters, and a level above 6
    returns a code of [8 + (level - 3)] characters, more than 11. *)
Theorem out_of_range_level_fallback (lat lon : Q) (level : Z) :
  (exists code, latlon_to_meshcode lat lon level = Ok code) /\
  (level < 1 -> latlon_to_meshcode lat lon level = latlon_to_meshcode lat lon 3) /\
  (in_mesh_range lat lon ->
     (exists code, latlon_to_meshcode lat lon 3 = Ok code /\ String.length code = 8%nat) /\
     (6 < level ->
        exists code, latlon_to_meshcode lat lon level = Ok code /\
                     Z.of_nat (String.length code) = 8 + (level - 3) /\
                     (11 < String.length code)%nat)).
Proof.
  split; [apply encode_total|]. split.
  - intros Hlt. rewrite encode_loop by lia.
    replace (Z.to_nat (level - 3)) with 0%nat by lia. reflexivity.
  - intros Hr. split.
    + exists (quad_code lat lon 0). split; [reflexivity|apply quad_code_length, Hr].
    + intros Hgt. eexists. split; [apply encode_loop; lia|].
      rewrite quad_code_length by exact Hr. lia.
Qed.

Lemma out_of_range_level_fallback_witness :
  latlon_to_meshcode (356813489 # 10000000) (139766029 # 1000000) (-2)
  = latlon_to_meshcode (356813489 # 10000000) (139766029 # 1000000) 3 /\
  exists code,
    latlon_to_meshcode (356813489 # 10000000) (139766029 # 1000000) 9 = Ok code /\
    Z.of_nat (String.length code) = 8 + (9 - 3) /\ (11 < String.length code)%nat.
Proof.
  split.
  - apply (out_of_range_level_fallback (356813489 # 10000000) (139766029 # 1000000) (-2)).
    lia.
  - apply (out_of_range_level_fallback (356813489 # 10000000) (139766029 # 1000000) 9).
    + unfold in_mesh_range, Qle, Qlt. simpl. lia.
    + lia.
Defined.

(** C10 as stated fails outside the range: at latitude 0, longitude 100 the
    level 1 indices are [0] and [00], the level 3 code has 7 characters and
    the level 7 code has 11, not 12. *)
Lemma out_of_range_level_counterexample :
  latlon_to_meshcode 0 100 0 = Ok "0000000" /\
  latlon_to_meshcode 0 100 3 = Ok "0000000" /\
  String.length "0000000" = 7%nat /\
  latlon_to_meshcode 0 100 7 = Ok "00000001111" /\
  Z.of_nat (String.length "00000001111") = 11 /\
  8 + (7 - 3) = 12.
Proof. repeat split. Qed.

(** ** One more quadrant digit *)








(** Division by the constants of the codec, for linear arithmetic. *)
Ltac qdiv_const :=
  unfold Qdiv in *;
  change (/ 2)%Q with (1 # 2)%Q in *;
  change (/ 3)%Q with (1 # 3)%Q in *;
  change (/ 8)%Q with (1 # 8)%Q in *;
  change (/ 10)%Q with (1 # 10)%Q in *.

(** The cell size is positive. *)
Lemma cell_quadrant_pos (c : string) (x : cell) (i : nat) :
  (0 < x.1.2 /\ 0 < x.2)%Q ->
  (0 < (cell_quadrant c x i).1.2 /\ 0 < (cell_quadrant c x i).2)%Q.
Proof.
  unfold cell_quadrant. destruct x as [[[lat lon] dlat] dlon]. cbn [fst snd]. intros [H1 H2].
  destruct (i <? String.length c)%nat; cbn [fst snd]; qdiv_const; split; lra.
Qed.

Lemma cell_paired_pos (c : string) (min_len pos : nat) (parts : Q) (x : cell) :
  parts = 8%Q \/ parts = 10%Q ->
  (0 < x.1.2 /\ 0 < x.2)%Q ->
  (0 < (cell_paired min_len pos parts c x).1.2 /\ 0 < (cell_paired min_len pos parts c x).2)%Q.
Proof.
  unfold cell_paired. destruct x as [[[lat lon] dlat] dlon]. cbn [fst snd]. intros Hp [H1 H2].
  destruct (min_len <=? String.length c)%nat; cbn [fst snd]; destruct Hp as [-> | ->];
    qdiv_const; split; lra.
Qed.

Lemma decode_cell_pos (c : string) :
  (0 < (decode_cell c).1.2 /\ 0 < (decode_cell c).2)%Q.
Proof.
  unfold decode_cell.
  assert (H : forall idx x, (0 < x.1.2 /\ 0 < x.2)%Q ->
            (0 < (foldl (cell_quadrant c) x idx).1.2 /\ 0 < (foldl (cell_quadrant c) x idx).2)%Q).
  { induction idx as [|i idx IH]; intros x Hx; simpl; [exact Hx|].
    apply IH, cell_quadrant_pos, Hx. }
  apply H. apply cell_paired_pos; [auto|]. apply cell_paired_pos; [auto|].
  unfold cell_level1. cbn [fst snd]. split; reflexivity.
Qed.

(** ** The quadrant digit *)




(** ** Grid cells *)



(** ** Decoding what the encoder wrote *)

Lemma index2_two_digits (n : Z) (s : string) :
  (0 <= n <= 99)%Z ->
  index2 0 (String (digit_char (n / 10)) (String (digit_char (n mod 10)) s)) = n.
Proof. intros H. apply (index2_here n s H). Qed.





Lemma two_digits_ok (n : Z) (s : string) :
  (0 <= n <= 99)%Z ->
  all_digits (String (digit_char (n / 10)) (String (digit_char (n mod 10)) s)) = all_digits s.
Proof.
  intros H. cbn [all_digits].
  assert (E : (is_digit (digit_char (n / 10)) && is_digit (digit_char (n mod 10)))%bool = true).
  { apply (Z_range_forall
             (fun n => is_digit (digit_char (n / 10)) && is_digit (digit_char (n mod 10)))%bool
             0 100); [vm_compute; reflexivity|lia]. }
  apply andb_prop in E as [-> ->]. reflexivity.
Qed.

Lemma mesh_digits_ok (lat lon : Q) (level : Z) :
  in_mesh_range lat lon -> 1 <= level <= 6 ->
  mesh_code_ok (digits_code (take (code_length level) (mesh_digits lat lon))).
Proof.
  intros Hr Hl.
  destruct (range_lat_units lat lon Hr) as [Ha0 Ha1].
  destruct (range_lon_units lat lon Hr) as [Ho0 Ho1].
  pose proof (axis_m_range 1 _ 8 Ha0 ltac:(lia) eq_refl) as Ha2.
  pose proof (axis_m_range 1 _ 8 Ho0 ltac:(lia) eq_refl) as Ho2.
  pose proof (axis_m_range 2 _ 10 Ha0 ltac:(lia) eq_refl) as Ha3.
  pose proof (axis_m_range 2 _ 10 Ho0 ltac:(lia) eq_refl) as Ho3.
  pose proof (quadrant_digit_range lat lon 4 Ha0 Ho0 ltac:(lia)) as Hq4.
  pose proof (quadrant_digit_range lat lon 5 Ha0 Ho0 ltac:(lia)) as Hq5.
  pose proof (quadrant_digit_range lat lon 6 Ha0 Ho0 ltac:(lia)) as Hq6.
  unfold mesh_digits. cbv zeta.
  destruct (level_cases level Hl) as [-> | [-> | [-> | [-> | [-> | ->]]]]].
  all: cbn [code_length take digits_code foldr]; split;
    [ rewrite !two_digits_ok by lia; cbn [all_digits];
      rewrite ?is_digit_char by lia; reflexivity
    | cbn [String.length]; lia ].
Qed.


(** ** Round trip and refinement *)






Lemma inject_Z_bounds (a lo hi : Z) :
  (lo <= a <= hi)%Z -> (inject_Z lo <= inject_Z a /\ inject_Z a <= inject_Z hi)%Q.
Proof. intros [H1 H2]. split; rewrite <- Zle_Qle; assumption. Qed.




(** The containment of C3 is proper, not interior: at latitude 106/3,
    longitude 139, the level 1 and the level 2 boxes have the same
    south-west corner. *)
Example refinement_shares_corner :
  latlon_to_meshcode (106 # 3) 139 1 = Ok "5339" /\
  latlon_to_meshcode (106 # 3) 139 2 = Ok "533900" /\
  meshcode_to_latlon (Scalar "5339") "bbox"
  = Ok (Dict (BBox (106 # 3) 139 (324 # 9) 140)) /\
  meshcode_to_latlon (Scalar "533900") "bbox"
  = Ok (Dict (BBox (2544 # 72) (1112 # 8) (61200 # 1728) (8904 # 64))) /\
  (2544 # 72) == (106 # 3) /\ (1112 # 8) == 139.
Proof. repeat split. Qed.

(** The centre of the level 3 cell of Tokyo station lies within one cell
    size of the station, on each axis. *)
Example tokyo_center :
  meshcode_to_latlon (Scalar "53394611") "center"
  = Ok (Dict (LatLon (295937280 # 8294400) (14312320 # 102400))) /\
  (Qabs ((295937280 # 8294400) - (356813489 # 10000000)) < 1 # 120)%Q /\
  (Qabs ((14312320 # 102400) - (139766029 # 1000000)) < 1 # 80)%Q.
Proof. repeat split. Qed.

(** * Part IV: the callers and the rest of the codec *)

(** ** Target codes ([app.py], lines 17 and 132-133) *)

Lemma code_len_cases (level : Z) :
  (1 <= level <= 6 /\ dict_get MESH_LEVEL_MAP level 11%nat = code_length level) \/
  (~ 1 <= level <= 6 /\ dict_get MESH_LEVEL_MAP level 11%nat = 11%nat).
Proof.
  unfold MESH_LEVEL_MAP. cbn [dict_get].
  repeat match goal with
         | |- context [Z.eqb ?a level] => destruct (Z.eqb_spec a level); [subst; left; split; [lia|reflexivity]|]
         end.
  right. split; [lia|reflexivity].
Qed.

Lemma code_len_mono (k1 k2 : Z) :
  1 <= k1 <= k2 ->
  (dict_get MESH_LEVEL_MAP k1 11 <= dict_get MESH_LEVEL_MAP k2 11)%nat.
Proof.
  intros H.
  destruct (code_len_cases k1) as [[H1 ->] | [H1 ->]];
    destruct (code_len_cases k2) as [[H2 ->] | [H2 ->]].
  - destruct (level_cases k1 H1) as [-> | [-> | [-> | [-> | [-> | ->]]]]];
      destruct (level_cases k2 H2) as [-> | [-> | [-> | [-> | [-> | ->]]]]];
      cbn [code_length]; lia.
  - destruct (level_cases k1 H1) as [-> | [-> | [-> | [-> | [-> | ->]]]]];
      cbn [code_length]; lia.
  - lia.
  - lia.
Qed.

Lemma substring_all (s : string) (n : nat) :
  (String.length s <= n)%nat -> substring 0 n s = s.
Proof.
  revert n. induction s as [|ch s IH]; intros n H.
  - destruct n; reflexivity.
  - destruct n as [|n]; simpl in H; [lia|]. cbn [substring]. f_equal. apply IH. lia.
Qed.

(** X1. The groups of a finer level refine those of a coarser one: for
    levels [1 <= k1 <= k2] (a level outside 1..6 counting as the finest,
    11 characters), cutting a key code to level [k2] and then to level [k1]
    is cutting it to level [k1]; so two key codes with the same target code
    at level [k2] have the same target code at level [k1]. *)
Theorem target_code_nested (k1 k2 : Z) (key key' : string) :
  1 <= k1 <= k2 ->
  target_code k1 (target_code k2 key) = target_code k1 key /\
  (target_code k2 key = target_code k2 key' -> target_code k1 key = target_code k1 key').
Proof.
  intros H.
  assert (E : forall s, target_code k1 (target_code k2 s) = target_code k1 s).
  { intros s. unfold target_code, py_slice. rewrite !Nat.sub_0_r.
    apply substring_prefix. pose proof (code_len_mono k1 k2 H). lia. }
  split; [apply E|].
  intros Heq. rewrite <- (E key), <- (E key'), Heq. reflexivity.
Qed.

Lemma target_code_nested_witness :
  target_code 2 (target_code 5 "53394611341") = target_code 2 "53394611341".
Proof. apply (target_code_nested 2 5 "53394611341" ""). lia. Defined.

Lemma substring_digits_code (ds : list Z) (m : nat) :
  substring 0 m (digits_code ds) = digits_code (take m ds).
Proof.
  revert m. induction ds as [|d ds IH]; intros m.
  - destruct m; reflexivity.
  - destruct m as [|m]; [reflexivity|].
    cbn [digits_code foldr take substring]. f_equal. apply IH.
Qed.

Lemma code_length_mono (k L : Z) :
  1 <= k -> k <= L -> L <= 6 -> (code_length k <= code_length L)%nat.
Proof.
  intros H1 H2 H3.
  destruct (level_cases k ltac:(lia)) as [-> | [-> | [-> | [-> | [-> | ->]]]]];
    destruct (level_cases L ltac:(lia)) as [-> | [-> | [-> | [-> | [-> | ->]]]]];
    cbn [code_length]; lia.
Qed.

Lemma target_code_digits (k L : Z) (ds : list Z) :
  1 <= k -> k <= L -> L <= 6 ->
  target_code k (digits_code (take (code_length L) ds))
  = digits_code (take (code_length k) ds).
Proof.
  intros H1 H2 H3. unfold target_code, py_slice. rewrite Nat.sub_0_r.
  destruct (code_len_cases k) as [[_ ->] | [Hk _]]; [|lia].
  rewrite substring_digits_code, take_take.
  rewrite Nat.min_l by (apply code_length_mono; assumption). reflexivity.
Qed.

(** X2. Cutting is encoding at the coarser level: inside the valid mesh
    range and for levels [1 <= k <= L <= 6], the target code at level [k]
    of the level [L] code of a position is the level [k] code of that
    position; and at a level finer than the data, or outside 1..6, the
    target code is the code itself. *)
Theorem target_code_of_encoded (lat lon : Q) (k L : Z) :
  in_mesh_range lat lon -> 1 <= L <= 6 ->
  exists code,
    latlon_to_meshcode lat lon L = Ok code /\
    (1 <= k <= L -> latlon_to_meshcode lat lon k = Ok (target_code k code)) /\
    (L <= k \/ k < 1 -> target_code k code = code).
Proof.
  intros Hr HL.
  exists (digits_code (take (code_length L) (mesh_digits lat lon))).
  split; [apply encode_digits; assumption|]. split.
  - intros Hk. rewrite target_code_digits by lia. apply encode_digits; [exact Hr|lia].
  - intros Hk. unfold target_code, py_slice. rewrite Nat.sub_0_r.
    apply substring_all.
    destruct (mesh_digits_ok lat lon L Hr HL) as [_ Hlen].
    assert (Elen : String.length (digits_code (take (code_length L) (mesh_digits lat lon)))
                   = code_length L).
    { destruct (level_cases L HL) as [-> | [-> | [-> | [-> | [-> | ->]]]]]; reflexivity. }
    rewrite Elen.
    destruct (code_len_cases k) as [[Hk' ->] | [Hk' ->]].
    + apply code_length_mono; lia.
    + destruct (level_cases L HL) as [-> | [-> | [-> | [-> | [-> | ->]]]]];
        cbn [code_length]; lia.
Qed.

Lemma target_code_of_encoded_witness :
  exists code,
    latlon_to_meshcode (356813489 # 10000000) (139766029 # 1000000) 6 = Ok code /\
    latlon_to_meshcode (356813489 # 10000000) (139766029 # 1000000) 3
    = Ok (target_code 3 code).
Proof.
  destruct (target_code_of_encoded (356813489 # 10000000) (139766029 # 1000000) 3 6)
    as (code & E & H & _).
  - unfold in_mesh_range, Qle, Qlt. simpl. lia.
  - lia.
  - exists code. split; [exact E|]. apply H. lia.
Defined.


Lemma lat_step_lon_step (level : Z) :
  1 <= level <= 6 -> lat_step level == (2 # 3) * lon_step level.
Proof.
  intros H. destruct (level_cases level H) as [-> | [-> | [-> | [-> | [-> | ->]]]]];
    reflexivity.
Qed.



(** ** The three modes of the decoder ([mesh_utils.py], lines 167-183) *)



(** ** Digits the decoder does not check ([mesh_utils.py], lines 126-165) *)


Lemma digit_of_range (ch : ascii) :
  is_digit ch = true -> 0 <= digit_of ch <= 9 /\ digit_char (digit_of ch) = ch.
Proof.
  destruct ch as [[] [] [] [] [] [] [] []]; cbv [is_digit]; simpl;
    intros H; try discriminate H; split; try reflexivity; vm_compute; split; discriminate.
Qed.






(** ** From a cell back to its code ([mesh_utils.py], lines 184-193) *)

Lemma slot_absent (c : string) (i : nat) :
  (String.length c <= i)%nat -> slot i c = 0.
Proof. intros H. unfold slot. rewrite absent_slot_empty by exact H. reflexivity. Qed.

Lemma lat_bit_offset (q : Z) (x : Q) :
  (if existsb (Z.eqb q) [3; 4]%Z then x else 0) == inject_Z (lat_bit q) * x.
Proof. unfold lat_bit. destruct (existsb (Z.eqb q) [3; 4]); unfold inject_Z; lra. Qed.

Lemma lon_bit_offset (q : Z) (x : Q) :
  (if existsb (Z.eqb q) [2; 4]%Z then x else 0) == inject_Z (lon_bit q) * x.
Proof. unfold lon_bit. destruct (existsb (Z.eqb q) [2; 4]); unfold inject_Z; lra. Qed.

Lemma bit_range (q : Z) : 0 <= lat_bit q <= 1 /\ 0 <= lon_bit q <= 1.
Proof.
  unfold lat_bit, lon_bit.
  destruct (existsb (Z.eqb q) [3; 4]), (existsb (Z.eqb q) [2; 4]); lia.
Qed.

Lemma quadrant_code_bits (q : Z) :
  1 <= q <= 4 -> quadrant_code (lat_bit q) (lon_bit q) = q.
Proof.
  intros H. assert (C : q = 1 \/ q = 2 \/ q = 3 \/ q = 4) by lia.
  destruct C as [-> | [-> | [-> | ->]]]; reflexivity.
Qed.

(** The cell of a code of full length, in closed form: the corner from the
    digits, the size from the level. *)
Lemma decode_cell_units (c : string) (level : Z) :
  1 <= level <= 6 -> String.length c = code_length level ->
  exists la lo dla dlo,
    decode_cell c = (la, lo, dla, dlo) /\
    la == (2 # 3) * lat_units c /\ lo == 100 + lon_units c /\
    dla == lat_step level /\ dlo == lon_step level.
Proof.
  intros Hl Hlen.
  assert (A : forall i, (code_length level <= i)%nat -> slot i c = 0)
    by (intros i Hi; apply slot_absent; lia).
  unfold lat_units, lon_units, axis_units.
  unfold decode_cell, cell_paired, cell_level1. rewrite Hlen.
  destruct (level_cases level Hl) as [-> | [-> | [-> | [-> | [-> | ->]]]]];
    cbn [code_length Nat.leb Nat.sub seq foldl] in *;
    unfold cell_quadrant; rewrite ?Hlen;
    cbn [code_length Nat.ltb Nat.leb Nat.add lat_step lon_step];
    do 4 eexists; (split; [reflexivity|]);
    rewrite ?lat_bit_offset, ?lon_bit_offset;
    rewrite ?(A 4%nat), ?(A 5%nat), ?(A 6%nat), ?(A 7%nat), ?(A 8%nat), ?(A 9%nat),
      ?(A 10%nat) by lia;
    change (lat_bit 0) with 0; change (lon_bit 0) with 0;
    change (inject_Z 0) with 0%Q; qdiv_const; repeat split; lra.
Qed.

Lemma astype_int_unique (x : Q) (n : Z) :
  0 <= n -> (inject_Z n <= x)%Q -> (x < inject_Z n + 1)%Q -> astype_int x = n.
Proof.
  intros H0 Hlo Hhi.
  assert (Hx : (0 <= x)%Q).
  { apply Qle_trans with (inject_Z n); [|exact Hlo].
    change 0%Q with (inject_Z 0). rewrite <- Zle_Qle. exact H0. }
  pose proof (astype_int_lower x n Hx Hlo) as Hl.
  pose proof (astype_int_range x (n + 1) Hx) as Hr.
  rewrite inject_Z_plus in Hr. specialize (Hr Hhi). lia.
Qed.

(** The integer parts the encoder takes off along an axis are the digits of
    the cell the position lies in. *)
Lemma axis_m_units (L : Z) (t1 : Q) (d1 d2 d3 b4 b5 b6 : Z) :
  1 <= L <= 6 ->
  0 <= d1 -> 0 <= d2 <= 7 -> 0 <= d3 <= 9 -> 0 <= b4 <= 1 -> 0 <= b5 <= 1 -> 0 <= b6 <= 1 ->
  (L < 2 -> d2 = 0) -> (L < 3 -> d3 = 0) -> (L < 4 -> b4 = 0) ->
  (L < 5 -> b5 = 0) -> (L < 6 -> b6 = 0) ->
  (axis_units d1 d2 d3 b4 b5 b6 <= t1)%Q ->
  (t1 < axis_units d1 d2 d3 b4 b5 b6 + lon_step L)%Q ->
  axis_m 1 t1 = d1 /\ (2 <= L -> axis_m 2 t1 = d2) /\ (3 <= L -> axis_m 3 t1 = d3) /\
  (4 <= L -> axis_m 4 t1 = b4) /\ (5 <= L -> axis_m 5 t1 = b5) /\
  (6 <= L -> axis_m 6 t1 = b6).
Proof.
  intros HL D1 D2 D3 B4 B5 B6 Z2 Z3 Z4 Z5 Z6 Hlo Hhi.
  unfold axis_units in Hlo, Hhi.
  destruct (inject_Z_bounds d2 0 7 D2) as [Q2 Q2'].
  destruct (inject_Z_bounds d3 0 9 D3) as [Q3 Q3'].
  destruct (inject_Z_bounds b4 0 1 B4) as [Q4 Q4'].
  destruct (inject_Z_bounds b5 0 1 B5) as [Q5 Q5'].
  destruct (inject_Z_bounds b6 0 1 B6) as [Q6 Q6'].
  change (inject_Z 0) with 0%Q in *. change (inject_Z 7) with 7%Q in *.
  change (inject_Z 9) with 9%Q in *. change (inject_Z 1) with 1%Q in *.
  destruct (level_cases L HL) as [E | [E | [E | [E | [E | E]]]]];
    rewrite E in Hhi; cbn [lon_step] in Hhi;
    try (rewrite (Z2 ltac:(lia)) in Hlo, Hhi);
    try (rewrite (Z3 ltac:(lia)) in Hlo, Hhi);
    try (rewrite (Z4 ltac:(lia)) in Hlo, Hhi);
    try (rewrite (Z5 ltac:(lia)) in Hlo, Hhi);
    try (rewrite (Z6 ltac:(lia)) in Hlo, Hhi);
    change (inject_Z 0) with 0%Q in *;
    (assert (E1 : axis_m 1 t1 = d1)
      by (unfold axis_m; cbn [axis_t]; apply astype_int_unique; [lia|lra|lra]));
    (assert (E2 : 2 <= L -> axis_m 2 t1 = d2)
      by (intros Hk; first [lia | unfold axis_m; rewrite (axis_t_step 1) by lia;
          rewrite E1; cbn [axis_t parts_after];
          apply astype_int_unique; [lia|lra|lra]]));
    (assert (E3 : 3 <= L -> axis_m 3 t1 = d3)
      by (intros Hk; first [lia | unfold axis_m; rewrite (axis_t_step 2) by lia;
          rewrite (E2 ltac:(lia)), (axis_t_step 1) by lia;
          rewrite E1; cbn [axis_t parts_after];
          apply astype_int_unique; [lia|lra|lra]]));
    (assert (E4 : 4 <= L -> axis_m 4 t1 = b4)
      by (intros Hk; first [lia | unfold axis_m; rewrite (axis_t_step 3) by lia;
          rewrite (E3 ltac:(lia)), (axis_t_step 2) by lia;
          rewrite (E2 ltac:(lia)), (axis_t_step 1) by lia;
          rewrite E1; cbn [axis_t parts_after];
          apply astype_int_unique; [lia|lra|lra]]));
    (assert (E5 : 5 <= L -> axis_m 5 t1 = b5)
      by (intros Hk; first [lia | unfold axis_m; rewrite (axis_t_step 4) by lia;
          rewrite (E4 ltac:(lia)), (axis_t_step 3) by lia;
          rewrite (E3 ltac:(lia)), (axis_t_step 2) by lia;
          rewrite (E2 ltac:(lia)), (axis_t_step 1) by lia;
          rewrite E1; cbn [axis_t parts_after];
          apply astype_int_unique; [lia|lra|lra]]));
    (assert (E6 : 6 <= L -> axis_m 6 t1 = b6)
      by (intros Hk; first [lia | unfold axis_m; rewrite (axis_t_step 5) by lia;
          rewrite (E5 ltac:(lia)), (axis_t_step 4) by lia;
          rewrite (E4 ltac:(lia)), (axis_t_step 3) by lia;
          rewrite (E3 ltac:(lia)), (axis_t_step 2) by lia;
          rewrite (E2 ltac:(lia)), (axis_t_step 1) by lia;
          rewrite E1; cbn [axis_t parts_after];
          apply astype_int_unique; [lia|lra|lra]]));
    repeat split; assumption.
Qed.

(** *** A code is its digits *)

Lemma slot_digit_of (ch : ascii) (s : string) : slot 0 (String ch s) = digit_of ch.
Proof. apply slot_here. Qed.

Lemma slot_range (c : string) (i : nat) :
  all_digits c = true -> 0 <= slot i c <= 9.
Proof.
  revert i. induction c as [|ch s IH]; intros i H.
  - rewrite slot_absent by (simpl; lia). lia.
  - cbn [all_digits] in H. apply andb_prop in H as [Hc Hs]. destruct i as [|i].
    + rewrite slot_digit_of. apply digit_of_range, Hc.
    + rewrite slot_next. apply IH, Hs.
Qed.

Lemma code_slots (c : string) :
  all_digits c = true ->
  c = digits_code ((fun i => slot i c) <$> seq 0 (String.length c)).
Proof.
  induction c as [|ch s IH]; intros H; [reflexivity|].
  cbn [all_digits] in H. apply andb_prop in H as [Hc Hs].
  cbn [String.length seq]. rewrite fmap_cons. cbn [digits_code foldr].
  rewrite slot_digit_of. destruct (digit_of_range ch Hc) as [_ ->]. f_equal.
  rewrite <- fmap_S_seq, <- list_fmap_compose.
  rewrite (IH Hs) at 1. reflexivity.
Qed.

Lemma index2_slots (a : nat) (c : string) :
  all_digits c = true -> (a + 2 <= String.length c)%nat ->
  index2 a c = 10 * slot a c + slot (S a) c.
Proof.
  revert c. induction a as [|a IH]; intros c H Hlen.
  - destruct c as [|c0 [|c1 s]]; cbn [String.length] in Hlen; try lia.
    cbn [all_digits] in H. apply andb_prop in H as [H0 H]. apply andb_prop in H as [H1 _].
    rewrite slot_next, !slot_digit_of.
    destruct (digit_of_range c0 H0) as [R0 C0]. destruct (digit_of_range c1 H1) as [R1 C1].
    set (n := 10 * digit_of c0 + digit_of c1).
    assert (D : n / 10 = digit_of c0) by (symmetry; apply (Z.div_unique n 10 _ (digit_of c1)); lia).
    assert (M : n mod 10 = digit_of c1)
      by (symmetry; apply (Z.mod_unique n 10 (digit_of c0)); lia).
    rewrite <- C0, <- C1 at 1. rewrite <- D, <- M at 1.
    apply index2_two_digits. lia.
  - destruct c as [|ch s]; cbn [String.length] in Hlen; [lia|].
    cbn [all_digits] in H. apply andb_prop in H as [_ H].
    rewrite index2_next, !slot_next. apply IH; [exact H|lia].
Qed.

Lemma valid_code_inv (level : Z) (c : string) :
  valid_code level c = true ->
  1 <= level <= 6 /\ String.length c = code_length level /\ all_digits c = true /\
  1 <= slot 0 c /\ slot 4 c <= 7 /\ slot 5 c <= 7 /\
  (forall i, (8 <= i <= 10)%nat -> (i < String.length c)%nat -> 1 <= slot i c <= 4).
Proof.
  unfold valid_code. intros H.
  repeat (apply andb_prop in H as [H ?]).
  repeat match goal with
         | X : (_ <=? _) = true |- _ => apply Z.leb_le in X
         | X : Nat.eqb _ _ = true |- _ => apply Nat.eqb_eq in X
         end.
  repeat split; try assumption.
  - match goal with X : forallb _ _ = true |- _ => rename X into HF end.
    cbn [forallb] in HF. repeat (apply andb_prop in HF as [? HF]).
    assert (C : (i = 8 \/ i = 9 \/ i = 10)%nat) by lia.
    destruct C as [-> | [-> | ->]];
      match goal with
      | X : ((String.length c <=? ?j)%nat || _)%bool = true |- 1 <= slot ?j c =>
          apply orb_prop in X as [X | X];
          [apply Nat.leb_le in X; lia|apply andb_prop in X as [X _]; apply Z.leb_le in X; exact X]
      end.
  - match goal with X : forallb _ _ = true |- _ => rename X into HF end.
    cbn [forallb] in HF. repeat (apply andb_prop in HF as [? HF]).
    assert (C : (i = 8 \/ i = 9 \/ i = 10)%nat) by lia.
    destruct C as [-> | [-> | ->]];
      match goal with
      | X : ((String.length c <=? ?j)%nat || _)%bool = true |- slot ?j c <= 4 =>
          apply orb_prop in X as [X | X];
          [apply Nat.leb_le in X; lia|apply andb_prop in X as [_ X]; apply Z.leb_le in X; exact X]
      end.
Qed.

Lemma code_length_absent (level : Z) (c : string) :
  1 <= level <= 6 -> String.length c = code_length level ->
  (level < 2 -> slot 4 c = 0 /\ slot 5 c = 0) /\
  (level < 3 -> slot 6 c = 0 /\ slot 7 c = 0) /\
  (level < 4 -> slot 8 c = 0) /\ (level < 5 -> slot 9 c = 0) /\
  (level < 6 -> slot 10 c = 0) /\
  (4 <= level -> (8 < String.length c)%nat) /\
  (5 <= level -> (9 < String.length c)%nat) /\
  (6 <= level -> (10 < String.length c)%nat).
Proof.
  intros Hl Hlen.
  destruct (level_cases level Hl) as [-> | [-> | [-> | [-> | [-> | ->]]]]];
    cbn [code_length] in Hlen;
    repeat split; intros; try lia; apply slot_absent; lia.
Qed.

(** The digits the encoder takes off a point of the cell of a valid code
    are the digits of the code. *)
Lemma box_points_digits (c : string) (level : Z) (lat lon la lo dla dlo : Q) :
  valid_code level c = true ->
  decode_cell c = (la, lo, dla, dlo) ->
  (la <= lat /\ lat < la + dla)%Q -> (lo <= lon /\ lon < lo + dlo)%Q ->
  in_mesh_range lat lon /\
  take (code_length level) (mesh_digits lat lon)
  = (fun i => slot i c) <$> seq 0 (code_length level).
Proof.
  intros Hv Hd [Hla Hla'] [Hlo Hlo'].
  destruct (valid_code_inv level c Hv) as (Hl & Hlen & Hdig & V0 & V4 & V5 & Vq).
  destruct (decode_cell_units c level Hl Hlen) as (la' & lo' & dla' & dlo' & E & Ela & Elo & Edla & Edlo).
  rewrite Hd in E. injection E as <- <- <- <-.
  destruct (code_length_absent level c Hl Hlen) as (A2 & A3 & A4 & A5 & A6 & P4 & P5 & P6).
  assert (Hlen4 : (4 <= String.length c)%nat).
  { rewrite Hlen. destruct (level_cases level Hl) as [-> | [-> | [-> | [-> | [-> | ->]]]]];
      cbn [code_length]; lia. }
  pose proof (index2_slots 0 c Hdig ltac:(lia)) as I0.
  pose proof (index2_slots 2 c Hdig ltac:(lia)) as I2.
  pose proof (slot_range c 0 Hdig) as R0. pose proof (slot_range c 1 Hdig) as R1.
  pose proof (slot_range c 2 Hdig) as R2. pose proof (slot_range c 3 Hdig) as R3.
  pose proof (slot_range c 4 Hdig) as R4. pose proof (slot_range c 5 Hdig) as R5.
  pose proof (slot_range c 6 Hdig) as R6. pose proof (slot_range c 7 Hdig) as R7.
  assert (B0 : 10 <= index2 0 c <= 99) by (clear - I0 R0 R1 V0; lia).
  assert (B2 : 0 <= index2 2 c <= 99) by (clear - I2 R2 R3; lia).
  pose proof (lat_step_lon_step level Hl) as Els.
  assert (Hpos : (0 < lon_step level)%Q).
  { destruct (level_cases level Hl) as [-> | [-> | [-> | [-> | [-> | ->]]]]]; reflexivity. }
  assert (ZB : lat_bit 0 = 0 /\ lon_bit 0 = 0) by (split; reflexivity).
  assert (Ta : (lat_units c <= lat * (3 # 2) /\ lat * (3 # 2) < lat_units c + lon_step level)%Q)
    by (split; lra).
  assert (To : (lon_units c <= lon - 100 /\ lon - 100 < lon_units c + lon_step level)%Q)
    by (split; lra).
  destruct Ta as [Ta Ta']. destruct To as [To To'].
  destruct (axis_m_units level (lat * (3 # 2)) (index2 0 c) (slot 4 c) (slot 6 c)
              (lat_bit (slot 8 c)) (lat_bit (slot 9 c)) (lat_bit (slot 10 c)))
    as (La1 & La2 & La3 & La4 & La5 & La6);
    try assumption; try lia; try apply bit_range;
    try (intros H; first [rewrite (proj1 (A2 H)) | rewrite (proj1 (A3 H)) | rewrite (A4 H)
                          | rewrite (A5 H) | rewrite (A6 H)]; reflexivity).
  destruct (axis_m_units level (lon - 100) (index2 2 c) (slot 5 c) (slot 7 c)
              (lon_bit (slot 8 c)) (lon_bit (slot 9 c)) (lon_bit (slot 10 c)))
    as (Lo1 & Lo2 & Lo3 & Lo4 & Lo5 & Lo6);
    try assumption; try lia; try apply bit_range;
    try (intros H; first [rewrite (proj2 (A2 H)) | rewrite (proj2 (A3 H)) | rewrite (A4 H)
                          | rewrite (A5 H) | rewrite (A6 H)]; reflexivity).
  split.
  - assert (Ha0 : (0 <= lat * (3 # 2))%Q).
    { apply Qle_trans with (lat_units c); [|exact Ta]. unfold lat_units, axis_units.
      destruct (inject_Z_bounds (index2 0 c) 0 99 ltac:(clear - B0; lia)).
      destruct (inject_Z_bounds (slot 4 c) 0 9 R4). destruct (inject_Z_bounds (slot 6 c) 0 9 R6).
      destruct (inject_Z_bounds _ 0 1 (proj1 (bit_range (slot 8 c)))).
      destruct (inject_Z_bounds _ 0 1 (proj1 (bit_range (slot 9 c)))).
      destruct (inject_Z_bounds _ 0 1 (proj1 (bit_range (slot 10 c)))).
      change (inject_Z 0) with 0%Q in *. lra. }
    assert (Ho0 : (0 <= lon - 100)%Q).
    { apply Qle_trans with (lon_units c); [|exact To]. unfold lon_units, axis_units.
      destruct (inject_Z_bounds (index2 2 c) 0 99 B2).
      destruct (inject_Z_bounds (slot 5 c) 0 9 R5). destruct (inject_Z_bounds (slot 7 c) 0 9 R7).
      destruct (inject_Z_bounds _ 0 1 (proj2 (bit_range (slot 8 c)))).
      destruct (inject_Z_bounds _ 0 1 (proj2 (bit_range (slot 9 c)))).
      destruct (inject_Z_bounds _ 0 1 (proj2 (bit_range (slot 10 c)))).
      change (inject_Z 0) with 0%Q in *. lra. }
    destruct (axis_m_sandwich 1 _ Ha0) as [Sa Sa']. destruct (axis_m_sandwich 1 _ Ho0) as [So So'].
    rewrite La1 in Sa, Sa'. rewrite Lo1 in So, So'. cbn [axis_t] in Sa, Sa', So, So'.
    destruct (inject_Z_bounds (index2 0 c) 10 99 B0) as [B1 B1'].
    destruct (inject_Z_bounds (index2 2 c) 0 99 B2) as [B3 B4].
    change (inject_Z 10) with 10%Q in *. change (inject_Z 99) with 99%Q in *.
    change (inject_Z 0) with 0%Q in *.
    unfold in_mesh_range. repeat split; lra.
  - assert (F0 : axis_m 1 (lat * (3 # 2)) / 10 = slot 0 c)
      by (rewrite La1, I0; symmetry; apply (Z.div_unique _ 10 _ (slot 1 c)); lia).
    assert (F1 : axis_m 1 (lat * (3 # 2)) mod 10 = slot 1 c)
      by (rewrite La1, I0; symmetry; apply (Z.mod_unique _ 10 (slot 0 c)); lia).
    assert (F2 : axis_m 1 (lon - 100) / 10 = slot 2 c)
      by (rewrite Lo1, I2; symmetry; apply (Z.div_unique _ 10 _ (slot 3 c)); lia).
    assert (F3 : axis_m 1 (lon - 100) mod 10 = slot 3 c)
      by (rewrite Lo1, I2; symmetry; apply (Z.mod_unique _ 10 (slot 2 c)); lia).
    assert (G : forall i k, (8 <= i <= 10)%nat -> (i < String.length c)%nat ->
                axis_m k (lat * (3 # 2)) = lat_bit (slot i c) ->
                axis_m k (lon - 100) = lon_bit (slot i c) ->
                quadrant_digit lat lon k = slot i c).
    { intros i k Hi Hi' Ea Eo. unfold quadrant_digit. rewrite Ea, Eo.
      apply quadrant_code_bits, Vq; assumption. }
    unfold mesh_digits. cbv zeta. rewrite F0, F1, F2, F3.
    clear - Hl La2 Lo2 La3 Lo3 La4 Lo4 La5 Lo5 La6 Lo6 P4 P5 P6 G.
    destruct (level_cases level Hl) as [E | [E | [E | [E | [E | E]]]]];
      subst level; cbn [code_length take seq fmap list_fmap];
      try rewrite (La2 ltac:(clear; lia)); try rewrite (Lo2 ltac:(clear; lia));
      try rewrite (La3 ltac:(clear; lia)); try rewrite (Lo3 ltac:(clear; lia));
      try rewrite (G 8%nat 4%nat ltac:(clear; lia) (P4 ltac:(clear; lia))
                     (La4 ltac:(clear; lia)) (Lo4 ltac:(clear; lia)));
      try rewrite (G 9%nat 5%nat ltac:(clear; lia) (P5 ltac:(clear; lia))
                     (La5 ltac:(clear; lia)) (Lo5 ltac:(clear; lia)));
      try rewrite (G 10%nat 6%nat ltac:(clear; lia) (P6 ltac:(clear; lia))
                     (La6 ltac:(clear; lia)) (Lo6 ltac:(clear; lia)));
      reflexivity.
Qed.


(** Every point of the cell of a valid code has, at each level up to the
    code's, the code cut to that level. *)
Lemma box_points_encode (c : string) (level k : Z) (lat lon la lo dla dlo : Q) :
  valid_code level c = true -> 1 <= k <= level ->
  decode_cell c = (la, lo, dla, dlo) ->
  (la <= lat /\ lat < la + dla)%Q -> (lo <= lon /\ lon < lo + dlo)%Q ->
  latlon_to_meshcode lat lon k = Ok (target_code k c).
Proof.
  intros Hv Hk Hd Hlat Hlon.
  destruct (box_points_digits c level lat lon la lo dla dlo Hv Hd Hlat Hlon) as [Hr Hdigits].
  destruct (valid_code_inv level c Hv) as (Hl & Hlen & Hdig & _).
  rewrite encode_digits by (assumption || lia).
  rewrite (code_slots c Hdig) at 1. rewrite Hlen, <- Hdigits.
  rewrite target_code_digits by lia. reflexivity.
Qed.





(** *** The codes the encoder writes *)

Lemma slot_digits_code (ds : list Z) (i : nat) :
  Forall (fun d => 0 <= d <= 9) ds -> slot i (digits_code ds) = default 0 (ds !! i).
Proof.
  intros H. revert i. induction H as [|d ds Hd H IH]; intros i.
  - apply slot_absent. simpl. lia.
  - destruct i as [|i]; cbn [digits_code foldr].
    + apply slot_digit_char, Hd.
    + rewrite slot_next. apply IH.
Qed.

Lemma all_digits_code (ds : list Z) :
  Forall (fun d => 0 <= d <= 9) ds -> all_digits (digits_code ds) = true.
Proof.
  induction 1 as [|d ds Hd H IH]; [reflexivity|].
  cbn [digits_code foldr all_digits]. rewrite is_digit_char by exact Hd. exact IH.
Qed.

Lemma digits_code_length (ds : list Z) : String.length (digits_code ds) = length ds.
Proof. induction ds as [|d ds IH]; [reflexivity|]. cbn. f_equal. exact IH. Qed.

(** The code of a position of the range is a valid code. *)
Lemma encode_valid (lat lon : Q) (level : Z) :
  in_mesh_range lat lon -> 1 <= level <= 6 ->
  exists code, latlon_to_meshcode lat lon level = Ok code /\ valid_code level code = true.
Proof.
  intros Hr Hl. exists (digits_code (take (code_length level) (mesh_digits lat lon))).
  split; [apply encode_digits; assumption|].
  destruct (range_lat_units lat lon Hr) as [Ha0 Ha1].
  destruct (range_lon_units lat lon Hr) as [Ho0 Ho1].
  pose proof (axis_m_range 1 _ 8 Ha0 ltac:(lia) eq_refl) as Ha2.
  pose proof (axis_m_range 1 _ 8 Ho0 ltac:(lia) eq_refl) as Ho2.
  pose proof (axis_m_range 2 _ 10 Ha0 ltac:(lia) eq_refl) as Ha3.
  pose proof (axis_m_range 2 _ 10 Ho0 ltac:(lia) eq_refl) as Ho3.
  pose proof (quadrant_digit_range lat lon 4 Ha0 Ho0 ltac:(lia)) as Hq4.
  pose proof (quadrant_digit_range lat lon 5 Ha0 Ho0 ltac:(lia)) as Hq5.
  pose proof (quadrant_digit_range lat lon 6 Ha0 Ho0 ltac:(lia)) as Hq6.
  assert (HF : Forall (fun d => 0 <= d <= 9) (mesh_digits lat lon)).
  { unfold mesh_digits. cbv zeta. repeat (constructor; [cbv beta; Z.div_mod_to_equations; lia|]). constructor. }
  unfold valid_code. cbn [forallb].
  rewrite all_digits_code by (apply Forall_take, HF).
  rewrite !slot_digits_code by (apply Forall_take, HF).
  rewrite digits_code_length, length_take.
  assert (D : 1 <= axis_m 1 (lat * (3 # 2)) / 10) by (Z.div_mod_to_equations; lia).
  unfold mesh_digits. cbv zeta.
  destruct (level_cases level Hl) as [-> | [-> | [-> | [-> | [-> | ->]]]]];
    cbn [code_length take length Nat.min lookup list_lookup default from_option id
         Nat.eqb Nat.leb orb];
    repeat (apply andb_true_intro; split);
    first [reflexivity | apply Z.leb_le; lia].
Qed.

(** X9. The encoder writes valid codes only: inside the valid mesh range
    and at each level 1..6, the code has the length of its level, digits
    only, no leading zero, level 2 digits in 0..7 and quadrant digits in
    1..4.  With X7, the valid codes of a level are exactly the codes of
    the positions of the range. *)
Theorem encoded_is_valid (lat lon : Q) (level : Z) :
  in_mesh_range lat lon -> 1 <= level <= 6 ->
  exists code, latlon_to_meshcode lat lon level = Ok code /\ valid_code level code = true.
Proof. apply encode_valid. Qed.

Lemma encoded_is_valid_witness :
  exists code,
    latlon_to_meshcode (356813489 # 10000000) (139766029 # 1000000) 6 = Ok code /\
    valid_code 6 code = true.
Proof.
  apply (encoded_is_valid (356813489 # 10000000) (139766029 # 1000000) 6).
  - unfold in_mesh_range, Qle, Qlt. simpl. lia.
  - lia.
Defined.

(** X10. The keys of an aggregation are mesh codes of its level: for a
    valid code of level [L] and a level [k] from 1 to [L], the target code
    at level [k] is a valid code of level [k]. *)
Theorem target_code_valid (c : string) (L k : Z) :
  valid_code L c = true -> 1 <= k <= L -> valid_code k (target_code k c) = true.
Proof.
  intros Hv Hk. pose proof (decode_cell_pos c) as Hpos.
  destruct (decode_cell c) as [[[la lo] dla] dlo] eqn:Hd. cbn [fst snd] in Hpos.
  destruct Hpos as [P1 P2].
  destruct (valid_code_inv L c Hv) as (Hl & _).
  assert (Hlat : (la <= la /\ la < la + dla)%Q) by (split; lra).
  assert (Hlon : (lo <= lo /\ lo < lo + dlo)%Q) by (split; lra).
  destruct (box_points_digits c L la lo la lo dla dlo Hv Hd Hlat Hlon) as [Hr _].
  pose proof (box_points_encode c L k la lo la lo dla dlo Hv Hk Hd Hlat Hlon) as E.
  destruct (encode_valid la lo k Hr ltac:(lia)) as (code & E' & Hc).
  rewrite E in E'. injection E' as <-. exact Hc.
Qed.

Lemma target_code_valid_witness : valid_code 3 (target_code 3 "53394611341") = true.
Proof. apply (target_code_valid "53394611341" 6 3); [reflexivity|lia]. Defined.

(** ** The heat map ([app.py], lines 180-195 and 483-484) *)

Lemma Qltb_true (a b : Q) : Qltb a b = true <-> (a < b)%Q.
Proof.
  unfold Qltb. rewrite negb_true_iff. split.
  - intros H. apply Qnot_le_lt. intros Hle. apply Qle_bool_iff in Hle. congruence.
  - intros H. destruct (Qle_bool b a) eqn:E; [|reflexivity].
    apply Qle_bool_iff in E. exfalso. apply (Qlt_not_le _ _ H E).
Qed.

Lemma Qltb_false (a b : Q) : Qltb a b = false <-> (b <= a)%Q.
Proof.
  unfold Qltb. rewrite negb_false_iff. apply Qle_bool_iff.
Qed.

Lemma py_int_range (x : Q) (n : Z) :
  (0 <= x)%Q -> (x <= inject_Z n)%Q -> 0 <= py_int x <= n.
Proof.
  intros H0 Hn. change (py_int x) with (astype_int x).
  assert (H : (x < inject_Z (n + 1))%Q).
  { rewrite inject_Z_plus. change (inject_Z 1) with 1%Q. lra. }
  pose proof (astype_int_range x (n + 1) H0 H). lia.
Qed.

Lemma py_int_Qeq (x : Q) (n : Z) : 0 <= n -> x == inject_Z n -> py_int x = n.
Proof.
  intros H0 E. change (py_int x) with (astype_int x).
  apply astype_int_unique; [exact H0| |]; rewrite E; lra.
Qed.

Ltac qdiv_quarter :=
  unfold Qdiv; change (/ (1 # 4))%Q with 4%Q.

Lemma normalized_range (val max_val : Q) :
  (0 < max_val)%Q -> (0 <= val)%Q -> (val <= max_val)%Q ->
  (0 <= val / max_val /\ val / max_val <= 1)%Q.
Proof.
  intros Hm H0 H1. split.
  - apply Qle_shift_div_l; [exact Hm|lra].
  - apply Qle_shift_div_r; [exact Hm|lra].
Qed.

(** The four segments of the ramp. *)
Lemma heatmap_color_cases (val max_val : Q) :
  (max_val <= 0)%Q \/ (0 <= val /\ val <= max_val)%Q ->
  exists r g b a,
    get_heatmap_color val max_val = [r; g; b; a] /\
    0 <= r <= 255 /\ 0 <= g <= 255 /\ 0 <= b <= 255 /\ (a = 140 \/ a = 160).
Proof.
  intros H. unfold get_heatmap_color.
  destruct (Qle_bool max_val 0) eqn:Em.
  { exists 0, 0, 255, 140. split; [reflexivity|]. repeat split; lia. }
  assert (Hm : (0 < max_val)%Q).
  { apply Qnot_le_lt. intros Hle. apply Qle_bool_iff in Hle. congruence. }
  destruct H as [H | [H0 H1]]; [exfalso; apply (Qlt_not_le _ _ Hm H)|].
  destruct (normalized_range val max_val Hm H0 H1) as [N0 N1].
  cbv zeta. set (n := (val / max_val)%Q) in *.
  destruct (Qltb n (1 # 4)) eqn:E1; [apply Qltb_true in E1|apply Qltb_false in E1;
    destruct (Qltb n (1 # 2)) eqn:E2; [apply Qltb_true in E2|apply Qltb_false in E2;
      destruct (Qltb n (3 # 4)) eqn:E3; [apply Qltb_true in E3|apply Qltb_false in E3]]];
    do 4 eexists; (split; [reflexivity|]);
    (split; [|split; [|split; [|lia]]]);
    first [lia | apply py_int_range; change (inject_Z 255) with 255%Q; qdiv_quarter; lra].
Qed.

(** X11. The heat-map colour is a colour: when the maximum is not
    positive, or the value lies between 0 and the maximum, the result is a
    list of four integers, red, green and blue in 0..255 and the alpha 140
    or 160. *)
Theorem heatmap_color_range (val max_val : Q) :
  (max_val <= 0)%Q \/ (0 <= val /\ val <= max_val)%Q ->
  exists r g b a,
    get_heatmap_color val max_val = [r; g; b; a] /\
    0 <= r <= 255 /\ 0 <= g <= 255 /\ 0 <= b <= 255 /\ (a = 140 \/ a = 160).
Proof. apply heatmap_color_cases. Qed.

Lemma heatmap_color_range_witness :
  exists r g b a,
    get_heatmap_color 30 100 = [r; g; b; a] /\
    0 <= r <= 255 /\ 0 <= g <= 255 /\ 0 <= b <= 255 /\ (a = 140 \/ a = 160).
Proof.
  apply (heatmap_color_range 30 100). right. split; unfold Qle; simpl; lia.
Defined.

Lemma Qltb_comp (a a' c : Q) : a == a' -> Qltb a c = Qltb a' c.
Proof.
  intros E. destruct (Qltb a' c) eqn:E'.
  - apply Qltb_true. apply Qltb_true in E'. rewrite E. exact E'.
  - apply Qltb_false. apply Qltb_false in E'. rewrite E. exact E'.
Qed.

Lemma py_int_comp (x y : Q) : (0 <= x)%Q -> x == y -> py_int x = py_int y.
Proof.
  intros H E. change (py_int x) with (astype_int x). change (py_int y) with (astype_int y).
  rewrite !astype_int_floor by (rewrite <- ?E; exact H). apply Qfloor_comp, E.
Qed.

Lemma list4_eq {A} (a1 a2 a3 a4 b1 b2 b3 b4 : A) :
  a1 = b1 -> a2 = b2 -> a3 = b3 -> a4 = b4 -> [a1; a2; a3; a4] = [b1; b2; b3; b4].
Proof. intros -> -> -> ->. reflexivity. Qed.

(** Between 0 and the maximum the colour depends on the ratio only. *)
Lemma heatmap_color_ratio (val max_val k : Q) :
  (0 < max_val)%Q -> (0 <= val)%Q -> (val <= max_val)%Q -> val == k * max_val ->
  get_heatmap_color val max_val = get_heatmap_color k 1.
Proof.
  intros Hm H0 H1 E.
  destruct (normalized_range val max_val Hm H0 H1) as [N0 N1].
  assert (En : val / max_val == k / 1).
  { rewrite E. field. intros Hz. rewrite Hz in Hm. apply (Qlt_irrefl 0 Hm). }
  unfold get_heatmap_color.
  assert (Em : Qle_bool max_val 0 = false).
  { destruct (Qle_bool max_val 0) eqn:Em; [|reflexivity].
    apply Qle_bool_iff in Em. exfalso. apply (Qlt_not_le _ _ Hm Em). }
  rewrite Em. change (Qle_bool 1 0) with false. cbv iota zeta.
  set (n := (val / max_val)%Q) in *. set (m := (k / 1)%Q) in *.
  rewrite !(Qltb_comp n m) by exact En.
  destruct (Qltb m (1 # 4)) eqn:E1; [apply Qltb_true in E1|apply Qltb_false in E1;
    destruct (Qltb m (1 # 2)) eqn:E2; [apply Qltb_true in E2|apply Qltb_false in E2;
      destruct (Qltb m (3 # 4)) eqn:E3; [apply Qltb_true in E3|apply Qltb_false in E3]]];
    apply list4_eq;
    first [reflexivity | apply py_int_comp; [qdiv_quarter; lra|rewrite En; reflexivity]].
Qed.


(** X12. The colour ramp runs blue, cyan, green, yellow, red: for a
    positive maximum, the value 0 is blue, a quarter of the maximum cyan
    and half of it green, all three with the alpha 140; three quarters of
    the maximum is yellow and the maximum itself red, both with the alpha
    160. *)
Theorem heatmap_color_stops (max_val : Q) :
  (0 < max_val)%Q ->
  get_heatmap_color 0 max_val = [0; 0; 255; 140] /\
  get_heatmap_color (max_val / 4) max_val = [0; 255; 255; 140] /\
  get_heatmap_color (max_val / 2) max_val = [0; 255; 0; 140] /\
  get_heatmap_color (max_val * (3 # 4)) max_val = [255; 255; 0; 160] /\
  get_heatmap_color max_val max_val = [255; 0; 0; 160].
Proof.
  intros Hm.
  assert (S : forall val k, (0 <= k)%Q -> (k <= 1)%Q -> val == k * max_val ->
              get_heatmap_color val max_val = get_heatmap_color k 1).
  { intros val k K0 K1 E. apply heatmap_color_ratio; try assumption; rewrite E; nra. }
  repeat split.
  - rewrite (S 0%Q 0%Q); [reflexivity|lra|lra|ring].
  - rewrite (S (max_val / 4)%Q (1 # 4)); [reflexivity|lra|lra|field].
  - rewrite (S (max_val / 2)%Q (1 # 2)); [reflexivity|lra|lra|field].
  - rewrite (S (max_val * (3 # 4))%Q (3 # 4)); [reflexivity|lra|lra|ring].
  - rewrite (S max_val 1%Q); [reflexivity|lra|lra|ring].
Qed.

Lemma heatmap_color_stops_witness :
  get_heatmap_color 0 1200 = [0; 0; 255; 140] /\
  get_heatmap_color 1200 1200 = [255; 0; 0; 160].
Proof.
  destruct (heatmap_color_stops 1200) as (H0 & _ & _ & _ & H1).
  - reflexivity.
  - split; [exact H0|exact H1].
Defined.






(** ** The displayed values ([app.py], lines 444-470) *)

(** The second list of column names, built when the suffix is ["総数"],
    is the first one again. *)
Lemma age_columns_names (ages : list string) (gender_suffix : string) :
  age_columns ages gender_suffix = (fun age => age ++ "歳人口　" ++ gender_suffix) <$> ages.
Proof.
  unfold age_columns. destruct (String.eqb_spec gender_suffix "総数") as [-> | _]; reflexivity.
Qed.

Lemma sum_axis1_some (r : row) (g : string -> Q) (cols : list string) :
  (forall c, c ∈ cols -> r c = Some (g c)) ->
  sum_axis1 r cols = Some (foldr Qplus 0%Q (g <$> cols)).
Proof.
  intros H. unfold sum_axis1.
  assert (E : mapM r cols = Some (g <$> cols)).
  { induction cols as [|c cols IH]; [reflexivity|].
    cbn [mapM]. rewrite (H c) by left. cbn.
    rewrite IH by (intros c' Hc'; apply H; right; exact Hc'). reflexivity. }
  rewrite E. reflexivity.
Qed.

Lemma sum_submseteq (l1 l2 : list Q) :
  l1 ⊆+ l2 -> Forall (fun v => (0 <= v)%Q) l2 ->
  Forall (fun v => (0 <= v)%Q) l1 /\
  (0 <= foldr Qplus 0 l1 /\ foldr Qplus 0 l1 <= foldr Qplus 0 l2)%Q.
Proof.
  induction 1 as [|x l1 l2 H IH|x y l|x l1 l2 H IH|l1 l2 l3 H1 IH1 H2 IH2]; intros HF.
  - split; [constructor|]. cbn. split; apply Qle_refl.
  - inversion HF as [|? ? Hx HF']; subst. destruct (IH HF') as (F & S0 & S1).
    split; [constructor; assumption|]. cbn [foldr]. split; lra.
  - inversion HF as [|? ? Hx HF']; subst. inversion HF' as [|? ? Hy HF'']; subst.
    assert (0 <= foldr Qplus 0 l)%Q.
    { clear - HF''. induction HF'' as [|v l Hv _ IH]; cbn [foldr]; [apply Qle_refl|lra]. }
    split; [repeat constructor; assumption|]. cbn [foldr]. split; lra.
  - inversion HF as [|? ? Hx HF']; subst. destruct (IH HF') as (F & S0 & S1).
    split; [exact F|]. cbn [foldr]. split; lra.
  - destruct (IH2 HF) as (F2 & _ & S2). destruct (IH1 F2) as (F1 & S0 & S1).
    split; [exact F1|]. split; [exact S0|eapply Qle_trans; eassumption].
Qed.

(** X14. The share of the selected age groups: when the selected groups
    are distinct and among the age groups, and the row has every age column
    of the chosen gender with a count that is not negative, the raw value lies
    between 0 and the recomputed total, and in the mode ["割合 (%)"] the
    displayed value lies between 0 and 100 and is 0 when the total is 0. *)
Theorem display_value_percent (r : row) (age_groups selected_ages : list string)
    (gender_suffix : string) :
  NoDup selected_ages ->
  (forall age, age ∈ selected_ages -> age ∈ age_groups) ->
  (forall age, age ∈ age_groups ->
     exists v, r (age ++ "歳人口　" ++ gender_suffix) = Some v /\ (0 <= v)%Q) ->
  exists total raw v,
    calculated_total r age_groups gender_suffix = Some total /\
    raw_value r age_groups selected_ages gender_suffix = Some raw /\
    (0 <= raw /\ raw <= total)%Q /\
    display_value "割合 (%)" r age_groups selected_ages gender_suffix = Some v /\
    (0 <= v /\ v <= 100)%Q /\ (total == 0 -> v == 0).
Proof.
  intros Hnd Hsub Hcols.
  set (col := fun age : string => age ++ "歳人口　" ++ gender_suffix).
  set (g := fun c : string => default 0%Q (r c)).
  assert (Hg : forall age, age ∈ age_groups -> r (col age) = Some (g (col age)) /\
                                               (0 <= g (col age))%Q).
  { intros age Ha. destruct (Hcols age Ha) as (v & E & Hv). unfold g, col. rewrite E.
    split; [reflexivity|exact Hv]. }
  assert (Hsum : forall ages, (forall age, age ∈ ages -> age ∈ age_groups) ->
             sum_axis1 r (age_columns ages gender_suffix)
             = Some (foldr Qplus 0%Q ((fun age => g (col age)) <$> ages))).
  { intros ages Ha. rewrite age_columns_names. fold col.
    rewrite (sum_axis1_some r g).
    - rewrite <- list_fmap_compose. reflexivity.
    - intros c Hc. apply list_elem_of_fmap in Hc as (age & -> & Hage).
      apply Hg, Ha, Hage. }
  assert (HF : Forall (fun v => (0 <= v)%Q) ((fun age => g (col age)) <$> age_groups)).
  { apply Forall_fmap, Forall_forall. intros age Ha. apply Hg, Ha. }
  pose proof (Hsum age_groups (fun _ H => H)) as Etot.
  set (total := foldr Qplus 0%Q ((fun age => g (col age)) <$> age_groups)) in *.
  assert (Hraw : exists raw, raw_value r age_groups selected_ages gender_suffix = Some raw /\
                             (0 <= raw /\ raw <= total)%Q).
  { destruct selected_ages as [|a sel] eqn:Es.
    - exists total. split; [exact Etot|].
      destruct (sum_submseteq _ _ (submseteq_nil_l _) HF) as (_ & H0 & H1).
      cbn in H0, H1. fold total in H1. split; [exact H1|apply Qle_refl].
    - rewrite <- Es in *. exists (foldr Qplus 0%Q ((fun age => g (col age)) <$> selected_ages)).
      split.
      + unfold raw_value. rewrite Es. rewrite <- Es. apply Hsum, Hsub.
      + apply sum_submseteq; [|exact HF]. apply fmap_submseteq.
        apply NoDup_submseteq; assumption. }
  destruct Hraw as (raw & Eraw & R0 & R1).
  assert (Hdisp : display_value "割合 (%)" r age_groups selected_ages gender_suffix
                  = Some (if Qeq_bool total 0 then 0 else raw / total * 100)%Q).
  { unfold display_value. unfold calculated_total at 1. rewrite Etot. cbn.
    rewrite Eraw. reflexivity. }
  exists total, raw, (if Qeq_bool total 0 then 0 else raw / total * 100)%Q.
  split; [exact Etot|]. split; [exact Eraw|]. split; [split; assumption|].
  split; [exact Hdisp|].
  destruct (Qeq_bool total 0) eqn:Ez.
  - split; [split; [apply Qle_refl|unfold Qle; simpl; lia]|reflexivity].
  - assert (Hne : ~ total == 0) by (apply Qeq_bool_neq, Ez).
    assert (Hp : (0 < total)%Q).
    { destruct (Qlt_le_dec 0 total) as [H|H]; [exact H|]. exfalso. apply Hne. lra. }
    destruct (normalized_range raw total Hp R0 R1) as [N0 N1].
    split; [split; lra|]. intros Hz. contradiction.
Qed.

Lemma display_value_percent_witness :
  exists v,
    display_value "割合 (%)"
      (fun c => if String.eqb c "0〜4歳人口　総数" then Some 30%Q
                else if String.eqb c "5〜9歳人口　総数" then Some 50%Q else None)
      ["0〜4"; "5〜9"] ["5〜9"] "総数" = Some v /\
    (0 <= v /\ v <= 100)%Q.
Proof.
  destruct (display_value_percent
              (fun c => if String.eqb c "0〜4歳人口　総数" then Some 30%Q
                        else if String.eqb c "5〜9歳人口　総数" then Some 50%Q else None)
              ["0〜4"; "5〜9"] ["5〜9"] "総数")
    as (total & raw & v & _ & _ & _ & E & H & _).
  - apply NoDup_singleton.
  - intros age H. apply list_elem_of_singleton in H as ->. right. left.
  - intros age H. apply elem_of_cons in H as [-> | H].
    + exists 30%Q. split; [reflexivity|unfold Qle; simpl; lia].
    + apply list_elem_of_singleton in H as ->.
      exists 50%Q. split; [reflexivity|unfold Qle; simpl; lia].
  - exists v. split; [exact E|exact H].
Defined.

(** ** The average age ([app.py], lines 273-278) *)




(** ** The census header ([data_processor.py], lines 26-56) *)

Section census.
Context {char : Type} (isspace is_comma : char -> bool).

Lemma split_length (s : list char) :
  length (split is_comma s) = S (length (List.filter is_comma s)).
Proof.
  induction s as [|ch s IH]; [reflexivity|].
  cbn [split List.filter]. destruct (is_comma ch).
  - cbn [length]. rewrite IH. reflexivity.
  - destruct (split is_comma s) as [|field fields]; [discriminate IH|exact IH].
Qed.

Lemma lstrip_head (s : list char) :
  match lstrip isspace s with
  | [] => True
  | ch :: _ => isspace ch = false
  end.
Proof.
  induction s as [|ch s IH]; [exact I|].
  cbn [lstrip]. destruct (isspace ch) eqn:E; [exact IH|exact E].
Qed.

Lemma lstrip_fixed (s : list char) :
  match s with [] => True | ch :: _ => isspace ch = false end -> lstrip isspace s = s.
Proof. destruct s as [|ch s]; [reflexivity|]. cbn [lstrip]. intros ->. reflexivity. Qed.

Lemma lstrip_suffix (s : list char) : exists p, s = (p ++ lstrip isspace s)%list.
Proof.
  induction s as [|ch s [p IH]]; [exists []; reflexivity|].
  cbn [lstrip]. destruct (isspace ch).
  - exists (ch :: p). cbn. f_equal. exact IH.
  - exists []. reflexivity.
Qed.

(** What [strip] returns has no white space at either end. *)
Lemma strip_idemp (s : list char) : strip isspace (strip isspace s) = strip isspace s.
Proof.
  unfold strip.
  set (y := lstrip isspace s).
  set (z := lstrip isspace (reverse y)).
  assert (Hw : lstrip isspace (reverse z) = reverse z).
  { apply lstrip_fixed.
    destruct (lstrip_suffix (reverse y)) as [p Hp]. fold z in Hp.
    assert (Ey : y = (reverse z ++ reverse p)%list).
    { rewrite <- reverse_app, <- Hp, reverse_involutive. reflexivity. }
    pose proof (lstrip_head s) as Hy. fold y in Hy.
    destruct (reverse z) as [|ch w]; [exact I|].
    rewrite Ey in Hy. exact Hy. }
  rewrite Hw, reverse_involutive.
  assert (Hz : lstrip isspace z = z) by (apply lstrip_fixed, lstrip_head).
  rewrite Hz. reflexivity.
Qed.

Lemma merge_headers_stripped (line1 line2 : list (list char)) :
  Forall (fun h => strip isspace h = h) (merge_headers isspace line1 line2).
Proof.
  unfold merge_headers. revert line2.
  induction line1 as [|code line1 IH]; intros [|label line2]; cbn [zip_with];
    try constructor; [|apply IH].
  destruct (strip isspace label) as [|ch l] eqn:E.
  - apply strip_idemp.
  - rewrite <- E. apply strip_idemp.
Qed.

(** X16. The header of the census file: with [n1] and [n2] the numbers
    of fields of the two stripped header lines (one more than their
    commas), there are [min n1 n2] headers, none with white space at
    either end; with four headers or more the [dtype] keys are the first
    four, and with fewer (an empty file has one, the empty header) the
    function stops on an [IndexError]. *)
Theorem census_headers_cases (raw1 raw2 : list char) :
  let n1 := S (length (List.filter is_comma (strip isspace raw1))) in
  let n2 := S (length (List.filter is_comma (strip isspace raw2))) in
  ((4 <= Nat.min n1 n2)%nat ->
   exists headers,
     census_headers isspace is_comma raw1 raw2 = Ok (headers, take 4 headers) /\
     length headers = Nat.min n1 n2 /\
     Forall (fun h => strip isspace h = h) headers) /\
  ((Nat.min n1 n2 < 4)%nat ->
   census_headers isspace is_comma raw1 raw2
   = Raise (IndexError "list index out of range")).
Proof.
  intros n1 n2. unfold census_headers. cbv zeta.
  set (line1 := split is_comma (strip isspace raw1)).
  set (line2 := split is_comma (strip isspace raw2)).
  pose proof (merge_headers_stripped line1 line2) as Hs.
  assert (Hlen : length (merge_headers isspace line1 line2) = Nat.min n1 n2).
  { unfold merge_headers. rewrite length_zip_with. unfold line1, line2.
    rewrite !split_length. reflexivity. }
  destruct (merge_headers isspace line1 line2) as [|h0 [|h1 [|h2 [|h3 rest]]]] eqn:E;
    cbn [length] in Hlen; (split; [intros H4|intros H4]); try lia; try reflexivity.
  exists (h0 :: h1 :: h2 :: h3 :: rest). split; [reflexivity|]. split; [exact Hlen|exact Hs].
Qed.
End census.

Lemma census_headers_cases_witness :
  census_headers (Ascii.eqb " ") (Ascii.eqb ",") (list_ascii_of_string "KEY_CODE,HTKSYORI")
    (list_ascii_of_string "")
  = Raise (IndexError "list index out of range").
Proof.
  apply (census_headers_cases (Ascii.eqb " ") (Ascii.eqb ",")
           (list_ascii_of_string "KEY_CODE,HTKSYORI") (list_ascii_of_string "")).
  vm_compute. lia.
Defined.

(** ** A code given as an integer ([mesh_utils.py], lines 105-107) *)

Lemma leading_digit (ch : ascii) (d d' : Decimal.uint) :
  1 <= digit_of ch -> uint_of_char ch (Some d) = Some d' ->
  Decimal.unorm d' = d' /\ d' <> Decimal.Nil.
Proof.
  intros H1 E. apply uint_of_char_spec in E.
  destruct E as [[-> ->] | E]; [vm_compute in H1; contradiction|].
  repeat (destruct E as [[-> ->] | E]; [split; [reflexivity|discriminate]|]).
  destruct E as [-> ->]. split; [reflexivity|discriminate].
Qed.

Lemma astype_str_parse (c : string) (n : Z) :
  1 <= slot 0 c -> parse_digits c = Some n -> astype_str n = c.
Proof.
  intros H1 E. destruct c as [|ch s].
  { rewrite slot_absent in H1 by (simpl; lia). lia. }
  rewrite slot_digit_of in H1. unfold parse_digits in E.
  destruct (NilEmpty.uint_of_string (String ch s)) as [d|] eqn:Ed; [|discriminate E].
  cbn [option_map] in E. injection E as <-.
  cbn [NilEmpty.uint_of_string] in Ed.
  destruct (NilEmpty.uint_of_string s) as [d0|] eqn:Es; [|discriminate Ed].
  destruct (leading_digit ch d0 d H1 Ed) as [Hn Hnil].
  unfold astype_str. change (Z.of_uint d) with (Z.of_int (Decimal.Pos d)).
  rewrite DecimalZ.to_of. cbn [Decimal.norm]. rewrite Hn.
  cbn [NilZero.string_of_int]. unfold NilZero.string_of_uint.
  destruct d as [| | | | | | | | | |]; try contradiction;
    apply NilEmpty.sus; cbn [NilEmpty.uint_of_string]; rewrite Es; exact Ed.
Qed.

(** X17. A code given as an integer: the integer a valid code is the
    decimal writing of is written back by [str] as the code, and decodes,
    in every mode, to what the code decodes to. *)
Theorem int_code_decodes (c : string) (level : Z) (mode : string) :
  valid_code level c = true ->
  exists n,
    parse_digits c = Some n /\ astype_str n = c /\
    meshcode_to_latlon (ScalarInt n) mode = meshcode_to_latlon (Scalar c) mode.
Proof.
  intros Hv. destruct (valid_code_inv level c Hv) as (Hl & Hlen & Hdig & V0 & _).
  destruct (parse_digits_some c Hdig) as [n En].
  { intros ->. rewrite slot_absent in V0 by (simpl; lia). lia. }
  exists n. pose proof (astype_str_parse c n V0 En) as Es.
  split; [exact En|]. split; [exact Es|].
  unfold meshcode_to_latlon. rewrite Es. reflexivity.
Qed.

Lemma int_code_decodes_witness :
  meshcode_to_latlon (ScalarInt 53394611) "bbox"
  = meshcode_to_latlon (Scalar "53394611") "bbox".
Proof.
  destruct (int_code_decodes "53394611" 3 "bbox") as (n & En & _ & H).
  - reflexivity.
  - injection En as <-. exact H.
Defined.

(** ** The weighted mean of a group ([app.py], lines 141-154) *)



(** ** South of the valid mesh range ([mesh_utils.py], lines 26-34) *)


